(** * The webhook router of useSend

    A shallow embedding of [apps/web/src/server/api/routers/webhook.ts]:
    the tRPC procedures [create], [update], [setStatus], [listCalls] and
    [getCall], the zod input schemas that guard them, and the Prisma
    calls they make, read as state passing over the two tables the
    router touches.

    Each procedure runs to completion before the next one starts: the
    interleaving of concurrent requests between two [await]s is outside
    this model. *)

From stdpp Require Import gmap strings list sorting infinite fin_maps pretty.
From Stdlib Require Import ZArith.

Local Open Scope Z_scope.

(** ** JavaScript values, as far as the input schemas look into them *)

(** A request body before validation.  Numbers are the whole numbers:
    a request that carries a number with a fraction is not among the
    requests of this model (the one number the router reads is the
    page size of [listCalls], which it hands to the store as a count of
    rows). An object is its list of properties, read by key. *)
#[local] Unset Elimination Schemes.
Inductive JsValue :=
| undefined
| null
| JsBoolean (b : bool)
| JsNumber (n : Z)
| JsString (s : string)
| JsArray (elements : list JsValue)
| JsObject (props : list (string * JsValue)).
#[local] Set Elimination Schemes.

(** [o[key]]: the first property of that name, [undefined] when there is
    none or when [o] is no object. *)
Fixpoint lookup_prop (key : string) (props : list (string * JsValue)) : JsValue :=
  match props with
  | [] => undefined
  | (k, v) :: rest => if decide (k = key) then v else lookup_prop key rest
  end.

Definition get (key : string) (o : JsValue) : JsValue :=
  match o with
  | JsObject props => lookup_prop key props
  | _ => undefined
  end.

(** ** zod *)

Module z.

Inductive PathSegment := Key (k : string) | Index (i : nat).

(** The issue codes the router's schemas can raise; [custom] carries
    the message given to [refine]. *)
Inductive ZodIssueCode :=
| invalid_type
| invalid_enum_value
| invalid_string
| too_small
| too_big
| custom (message : string).

Record ZodIssue := { path : list PathSegment; code : ZodIssueCode }.

Inductive ParseReturnType (A : Type) :=
| OK (value : A)
| INVALID (issues : list ZodIssue).
Arguments OK {A} value.
Arguments INVALID {A} issues.

(** A schema reads a value found at a path. *)
Definition ZodType (A : Type) := list PathSegment → JsValue → ParseReturnType A.

Definition addIssue {A} (p : list PathSegment) (c : ZodIssueCode) : ParseReturnType A :=
  INVALID [{| path := p; code := c |}].

Definition string : ZodType String.string := λ p v,
  match v with JsString s => OK s | _ => addIssue p invalid_type end.

Definition boolean : ZodType bool := λ p v,
  match v with JsBoolean b => OK b | _ => addIssue p invalid_type end.

Definition number : ZodType Z := λ p v,
  match v with JsNumber n => OK n | _ => addIssue p invalid_type end.

(** One check on a parsed value ([min], [max], [url], [refine]): it
    runs only on a value of the right type. *)
Definition check {A} (t : ZodType A) (holds : A → bool) (c : ZodIssueCode) : ZodType A :=
  λ p v,
    match t p v with
    | OK a => if holds a then OK a else addIssue p c
    | INVALID issues => INVALID issues
    end.

(** [z.string().url()]; what counts as a URL is the [URL] parser's
    business, so the test is handed in. *)
Definition url (isUrl : String.string → bool) (t : ZodType String.string) : ZodType String.string :=
  check t isUrl invalid_string.

Definition refine {A} (t : ZodType A) (holds : A → bool) (message : String.string) : ZodType A :=
  check t holds (custom message).

(** [z.string().min(n)] compares [input.length]. *)
Definition string_min (t : ZodType String.string) (n : nat) : ZodType String.string :=
  check t (λ s, bool_decide (n ≤ String.length s)%nat) too_small.

Definition number_min (t : ZodType Z) (n : Z) : ZodType Z :=
  check t (λ x, bool_decide (n ≤ x)) too_small.

Definition number_max (t : ZodType Z) (n : Z) : ZodType Z :=
  check t (λ x, bool_decide (x ≤ n)) too_big.

Definition optional {A} (t : ZodType A) : ZodType (option A) := λ p v,
  match v with
  | undefined => OK None
  | _ => match t p v with OK a => OK (Some a) | INVALID i => INVALID i end
  end.

(** The outer [option] of a [nullable] schema is [null]. *)
Definition nullable {A} (t : ZodType A) : ZodType (option A) := λ p v,
  match v with
  | null => OK None
  | _ => match t p v with OK a => OK (Some a) | INVALID i => INVALID i end
  end.

Definition default {A} (t : ZodType A) (d : JsValue) : ZodType A := λ p v,
  match v with
  | undefined => t p d
  | _ => t p v
  end.

(** [z.enum(values)]: a string, and one of [values]. *)
Definition enum (values : list String.string) : ZodType String.string := λ p v,
  match v with
  | JsString s => if bool_decide (s ∈ values) then OK s else addIssue p invalid_enum_value
  | _ => addIssue p invalid_type
  end.

(** [z.nativeEnum(E)]: a string or a number, and the value of a
    member of [E]; the members are given by name. *)
Definition nativeEnum {A} (members : list (String.string * A)) : ZodType A := λ p v,
  match v with
  | JsString s =>
      match list_find (λ m, m.1 = s) members with
      | Some (_, m) => OK m.2
      | None => addIssue p invalid_enum_value
      end
  | JsNumber _ => addIssue p invalid_enum_value
  | _ => addIssue p invalid_type
  end.

(** Two results side by side: the issues of both are reported. *)
Definition both {A B} (a : ParseReturnType A) (b : ParseReturnType B) : ParseReturnType (A * B) :=
  match a, b with
  | OK x, OK y => OK (x, y)
  | OK _, INVALID j => INVALID j
  | INVALID i, OK _ => INVALID i
  | INVALID i, INVALID j => INVALID (i ++ j)
  end.

Definition map_result {A B} (f : A → B) (a : ParseReturnType A) : ParseReturnType B :=
  match a with OK x => OK (f x) | INVALID i => INVALID i end.

(** The elements of an array, each at its index. *)
Fixpoint elements_from {A} (t : ZodType A) (p : list PathSegment) (i : nat)
    (l : list JsValue) : ParseReturnType (list A) :=
  match l with
  | [] => OK []
  | v :: rest =>
      map_result (λ xr, xr.1 :: xr.2)
        (both (t (p ++ [Index i]) v) (elements_from t p (S i) rest))
  end.

(** [z.array(t).min(n)]: the length check and the elements' issues are
    reported together. *)
Definition array_min {A} (t : ZodType A) (n : nat) : ZodType (list A) := λ p v,
  match v with
  | JsArray l =>
      map_result snd
        (both (if bool_decide (n ≤ length l)%nat then OK () else addIssue p too_small)
              (elements_from t p 0 l))
  | _ => addIssue p invalid_type
  end.

(** The property [key] of an object under validation. *)
Definition prop {A} (key : String.string) (t : ZodType A) : ZodType A := λ p o,
  t (p ++ [Key key]) (get key o).

(** [z.object(shape)]: [shape] reads the properties; anything that is
    no object is refused as a whole. *)
Definition object {A} (shape : ZodType A) : ZodType A := λ p v,
  match v with
  | JsObject _ => shape p v
  | _ => addIssue p invalid_type
  end.

Definition parse {A} (t : ZodType A) (v : JsValue) : ParseReturnType A := t [] v.

End z.

(** ** The rows of the two tables *)

(** Modelled from the spec: the enumeration [WebhookStatus] is declared
    in the Prisma schema, of which the router names [ACTIVE] and
    [DELETED]; the members are those of the spec's data model,
    "status ∈ {ACTIVE, PAUSED, DISABLED, DELETED}". *)
Inductive WebhookStatus := ACTIVE | PAUSED | DISABLED | DELETED.

(** Modelled from the spec: the enumeration [WebhookCallStatus] of the
    Prisma schema, with the members the spec gives a call record,
    "status ∈ {PENDING, SUCCESS, FAILED}". *)
Inductive WebhookCallStatus := PENDING | SUCCESS | FAILED.

Global Instance WebhookStatus_eq_dec : EqDecision WebhookStatus.
Proof. solve_decision. Defined.

Global Instance WebhookCallStatus_eq_dec : EqDecision WebhookCallStatus.
Proof. solve_decision. Defined.

Definition WebhookStatus_members : list (string * WebhookStatus) :=
  [("ACTIVE", ACTIVE); ("PAUSED", PAUSED); ("DISABLED", DISABLED); ("DELETED", DELETED)]%string.

Definition WebhookCallStatus_members : list (string * WebhookCallStatus) :=
  [("PENDING", PENDING); ("SUCCESS", SUCCESS); ("FAILED", FAILED)]%string.

(** A row of [db.webhook], with the columns the router reads or writes.
    The [id] column is the key of the table; team and user ids are
    integers. *)
Module Webhook.
Record t := {
  teamId : Z;
  url : string;
  description : option string;
  secret : string;
  eventTypes : list string;
  status : WebhookStatus;
  consecutiveFailures : Z;
  createdByUserId : Z;
}.
End Webhook.

(** A row of [db.webhookCall]; [createdAt] is a point in time. *)
Module WebhookCall.
Record t := {
  teamId : Z;
  webhookId : string;
  status : WebhookCallStatus;
  createdAt : Z;
}.
End WebhookCall.

(** A row as the client returns it: the key and the columns. *)
Abbreviation Row R := (string * R)%type.

(** ** The request context *)

Module Team.
Record t := { id : Z; isActive : bool; plan : string }.
End Team.

(** [ctx.team] and [ctx.session.user.id], as [teamProcedure] provides
    them. *)
Record Ctx := { team : Team.t; session_user_id : Z }.

(** ** Errors *)

Inductive TRPC_ERROR_CODE := BAD_REQUEST | FORBIDDEN | NOT_FOUND | INTERNAL_SERVER_ERROR.

(** What a procedure can throw: a [TRPCError] of its own, the issues of
    an input the schema refused, or the store's complaint that the row
    to update is not there. *)
Inductive Thrown :=
| TRPCError (code : TRPC_ERROR_CODE) (message : string)
| ZodError (issues : list z.ZodIssue)
| RecordNotFound.

(** The code the caller sees: tRPC answers a refused input with
    [BAD_REQUEST] and any foreign exception with
    [INTERNAL_SERVER_ERROR]. *)
Definition error_code (e : Thrown) : TRPC_ERROR_CODE :=
  match e with
  | TRPCError c _ => c
  | ZodError _ => BAD_REQUEST
  | RecordNotFound => INTERNAL_SERVER_ERROR
  end.

Inductive Outcome (A : Type) :=
| Return (a : A)
| Throw (e : Thrown).
Arguments Return {A} a.
Arguments Throw {A} e.

(** ** Validated inputs *)

Module CreateInput.
Record t := {
  url : string;
  description : option string;
  eventTypes : list string;
  secret : option string;
}.
End CreateInput.

Module UpdateInput.
Record t := {
  id : string;
  url : option string;
  description : option (option string);
  eventTypes : option (list string);
  rotateSecret : option bool;
  secret : option string;
}.
End UpdateInput.

Module SetStatusInput.
Record t := { id : string; status : WebhookStatus }.
End SetStatusInput.

Module ListCallsInput.
Record t := {
  webhookId : option string;
  status : option WebhookCallStatus;
  limit : Z;
  cursor : option string;
}.
End ListCallsInput.

Module ListCallsOutput.
Record t := { items : list (Row WebhookCall.t); nextCursor : option string }.
End ListCallsOutput.

(** ** Plan limits *)

Definition PLAN_WEBHOOK_LIMIT_FREE : nat := 1.
Definition PLAN_WEBHOOK_LIMIT_PAID : nat := 3.

Definition getWebhookLimit (team : Team.t) : nat :=
  let isPaid := Team.isActive team && negb (String.eqb (Team.plan team) "FREE") in
  if isPaid then PLAN_WEBHOOK_LIMIT_PAID else PLAN_WEBHOOK_LIMIT_FREE.

(** ** Prisma, on one table *)

Module prisma.
Section table.
Context {R : Type}.

(** The rows a [where] clause keeps. *)
Definition matching (clause : R → bool) (kr : Row R) : Prop := clause kr.2 = true.

#[global] Instance matching_dec clause kr : Decision (matching clause kr).
Proof. unfold matching; apply _. Defined.

(** [findFirst({ where: { id, ... } })]: the row of that key, if
    the rest of the clause holds of it. *)
Definition findFirst (id : string) (clause : R → bool) (t : gmap string R) : option (Row R) :=
  match t !! id with
  | Some r => if clause r then Some (id, r) else None
  | None => None
  end.

Definition count (clause : R → bool) (t : gmap string R) : nat :=
  size (filter (matching clause) t).

(** [create({ data })]: the store allots a key no row has. *)
Definition create (data : R) (t : gmap string R) : Row R * gmap string R :=
  let id := fresh (dom t) in
  ((id, data), <[id := data]> t).

(** [update({ where: { id }, data })]: [data] overwrites the columns
    it names; there is no result when no row has the key. *)
Definition update (id : string) (data : R → R) (t : gmap string R)
    : option (Row R * gmap string R) :=
  match t !! id with
  | Some r => Some ((id, data r), <[id := data r]> t)
  | None => None
  end.

(** [orderBy: { column: "desc" }]. *)
Definition desc (column : R → Z) : relation (Row R) :=
  λ a b, column b.2 ≤ column a.2.

#[global] Instance desc_dec column : RelDecision (desc column).
Proof. intros a b; unfold desc; apply _. Defined.

(** [cursor: { id }]: the rows from the one with that key on. *)
Fixpoint from_cursor (id : string) (rows : list (Row R)) : list (Row R) :=
  match rows with
  | [] => []
  | r :: rest => if decide (r.1 = id) then r :: rest else from_cursor id rest
  end.

(** The rows [findMany] has to choose from: the matching rows in
    order, rows of equal rank in the order the table yields them;
    from the cursor on when there is one. *)
Definition ordered (clause : R → bool) (orderBy : relation (Row R))
    `{!RelDecision orderBy} (cursor : option string)
    (t : gmap string R) : list (Row R) :=
  let rows := merge_sort orderBy (filter (matching clause) (map_to_list t)) in
  match cursor with Some id => from_cursor id rows | None => rows end.

(** [findMany({ where, orderBy, take, cursor })]: no more than
    [take] of them. *)
Definition findMany (clause : R → bool) (orderBy : relation (Row R))
    `{!RelDecision orderBy} (take : nat) (cursor : option string)
    (t : gmap string R) : list (Row R) :=
  firstn take (ordered clause orderBy cursor t).
End table.
End prisma.

(** ** The router's calls as one type *)

(** A request to one of the procedures that manage subscriptions. *)
Inductive Mutation :=
| Create (raw : JsValue)
| Update (raw : JsValue)
| SetStatus (raw : JsValue).

(** ** The store and the procedures *)

Section Router.

(** The test behind [z.string().url()]. *)
Variable isUrl : string → bool.

(** The constant of [~/server/service/webhook-events] the router turns
    into [EVENT_TYPES_ENUM]: the names of the event types. *)
Variable WEBHOOK_EVENT_TYPES : list string.

(** The randomness [WebhookService.generateSecret] consumes. *)
Variable Entropy : Type.

(** Modelled from the spec: [WebhookService.generateSecret] of
    [~/server/service/webhook-service], of which the router has only
    the calls: "generateSecret() produces a fresh high-entropy opaque
    token (≥16 bytes) suitable as a subscription secret".  It draws a
    token from the entropy and leaves the rest. *)
Variable generateSecret_draw : Entropy → string * Entropy.

(** The value the [consecutiveFailures] column takes when [create]
    names none: a column default of the Prisma schema. *)
Variable consecutiveFailures_default : Z.

(** What a request can see and change: the two tables by [id], and the
    entropy left. *)
Record World := {
  webhook : gmap string Webhook.t;
  webhookCall : gmap string WebhookCall.t;
  entropy : Entropy;
}.

Definition with_webhook (t : gmap string Webhook.t) (st : World) : World :=
  {| webhook := t; webhookCall := webhookCall st; entropy := entropy st |}.

Definition with_entropy (e : Entropy) (st : World) : World :=
  {| webhook := webhook st; webhookCall := webhookCall st; entropy := e |}.

(** *** The monad of a request: state, and exceptions that keep it *)

Definition M (A : Type) : Type := World → Outcome A * World.

#[local] Instance M_ret : MRet M := λ A a st, (Return a, st).

#[local] Instance M_bind : MBind M := λ A B f m st,
  match m st with
  | (Return a, st') => f a st'
  | (Throw e, st') => (Throw e, st')
  end.

#[local] Instance M_fmap : FMap M := λ A B f m, a ← m; mret (f a).

#[local] Instance M_throw : MThrow Thrown M := λ A e st, (Throw e, st).

Definition gets {A} (f : World → A) : M A := λ st, (Return (f st), st).

Definition generateSecret : M string := λ st,
  let '(token, e) := generateSecret_draw (entropy st) in
  (Return token, with_entropy e st).

(** *** The tables of [db] *)

Definition db_webhook_count (clause : Webhook.t → bool) : M nat :=
  gets (λ st, prisma.count clause (webhook st)).

Definition db_webhook_create (data : Webhook.t) : M (Row Webhook.t) :=
  λ st,
    let '(row, t) := prisma.create data (webhook st) in
    (Return row, with_webhook t st).

(** [db.webhook.update] of the row [id]; the store throws when the row
    is gone. *)
Definition db_webhook_update (id : string) (data : Webhook.t → Webhook.t)
    : M (Row Webhook.t) :=
  λ st,
    match prisma.update id data (webhook st) with
    | Some (row, t) => (Return row, with_webhook t st)
    | None => (Throw RecordNotFound, st)
    end.

(** [findFirst({ where: { id, teamId } })] on [db.webhook]. *)
Definition db_webhook_findFirst (id : string) (teamId : Z) : M (option (Row Webhook.t)) :=
  gets (λ st,
    prisma.findFirst id (λ w, bool_decide (Webhook.teamId w = teamId)) (webhook st)).

(** *** tRPC *)

(** [teamProcedure.input(schema).mutation(resolver)]: the resolver runs
    on what the schema makes of the request, or not at all. *)
Definition procedure {I A} (schema : z.ZodType I) (resolver : Ctx → I → M A)
    : Ctx → JsValue → M A :=
  λ ctx raw,
    match z.parse schema raw with
    | z.OK input => resolver ctx input
    | z.INVALID issues => mthrow (ZodError issues)
    end.

(** *** The router *)

Definition EVENT_TYPES_ENUM : z.ZodType string := z.enum WEBHOOK_EVENT_TYPES.

(** [{ teamId: ctx.team.id, status: { not: WebhookStatus.DELETED } }] *)
Definition held_by (teamId : Z) (w : Webhook.t) : bool :=
  bool_decide (Webhook.teamId w = teamId) && bool_decide (Webhook.status w ≠ DELETED).

(** The subscriptions a team holds: those of its rows that are not
    [DELETED]. *)
Definition held (teamId : Z) (st : World) : nat :=
  prisma.count (held_by teamId) (webhook st).

Definition create_input : z.ZodType CreateInput.t :=
  z.object (λ p o,
    z.map_result (λ '(url, (description, (eventTypes, secret))),
        {| CreateInput.url := url; CreateInput.description := description;
           CreateInput.eventTypes := eventTypes; CreateInput.secret := secret |})
      (z.both (z.prop "url" (z.url isUrl z.string) p o)
      (z.both (z.prop "description" (z.optional z.string) p o)
      (z.both (z.prop "eventTypes" (z.array_min EVENT_TYPES_ENUM 1) p o)
              (z.prop "secret" (z.optional (z.string_min z.string 16)) p o))))).

Definition limit_message (count limit : nat) : string :=
  "Webhook limit reached: " +:+ pretty count +:+ "/" +:+ pretty limit
    +:+ ". Upgrade plan to add more.".

(** The [data] of the row [create] adds. *)
Definition create_data (ctx : Ctx) (input : CreateInput.t) (secret : string) : Webhook.t :=
  {| Webhook.teamId := Team.id (team ctx);
     Webhook.url := CreateInput.url input;
     Webhook.description := CreateInput.description input;
     Webhook.secret := secret;
     Webhook.eventTypes := CreateInput.eventTypes input;
     Webhook.status := ACTIVE;
     Webhook.consecutiveFailures := consecutiveFailures_default;
     Webhook.createdByUserId := session_user_id ctx |}.

Definition create : Ctx → JsValue → M (Row Webhook.t) :=
  procedure create_input (λ ctx input,
    let limit := getWebhookLimit (team ctx) in
    count ← db_webhook_count (held_by (Team.id (team ctx)));
    if bool_decide (limit ≤ count)%nat then
      mthrow (TRPCError FORBIDDEN (limit_message count limit))
    else
      secret ← match CreateInput.secret input with
               | Some s => mret s
               | None => generateSecret
               end;
      db_webhook_create (create_data ctx input secret)).

Definition update_input : z.ZodType UpdateInput.t :=
  z.object (λ p o,
    z.map_result (λ '(id, (url, (description, (eventTypes, (rotateSecret, secret))))),
        {| UpdateInput.id := id; UpdateInput.url := url;
           UpdateInput.description := description;
           UpdateInput.eventTypes := eventTypes;
           UpdateInput.rotateSecret := rotateSecret;
           UpdateInput.secret := secret |})
      (z.both (z.prop "id" z.string p o)
      (z.both (z.prop "url" (z.optional (z.url isUrl z.string)) p o)
      (z.both (z.prop "description" (z.optional (z.nullable z.string)) p o)
      (z.both (z.prop "eventTypes" (z.optional (z.array_min EVENT_TYPES_ENUM 1)) p o)
      (z.both (z.prop "rotateSecret" (z.optional z.boolean) p o)
              (z.prop "secret" (z.optional (z.string_min z.string 16)) p o))))))).

Definition not_found_webhook : Thrown := TRPCError NOT_FOUND "Webhook not found".

(** The [data] of the update in [update], computed from the row
    found, [webhook]; the columns it does not name keep what the row
    has. *)
Definition update_data (input : UpdateInput.t) (secret : option string)
    (webhook row : Webhook.t) : Webhook.t :=
  {| Webhook.url := default (Webhook.url webhook) (UpdateInput.url input);
     Webhook.description :=
       match UpdateInput.description input with
       | None => Webhook.description webhook
       | Some d => d
       end;
     Webhook.eventTypes :=
       default (Webhook.eventTypes webhook) (UpdateInput.eventTypes input);
     Webhook.secret := default (Webhook.secret webhook) secret;
     Webhook.teamId := Webhook.teamId row;
     Webhook.status := Webhook.status row;
     Webhook.consecutiveFailures := Webhook.consecutiveFailures row;
     Webhook.createdByUserId := Webhook.createdByUserId row |}.

Definition update : Ctx → JsValue → M (Row Webhook.t) :=
  procedure update_input (λ ctx input,
    found ← db_webhook_findFirst (UpdateInput.id input) (Team.id (team ctx));
    match found with
    | None => mthrow not_found_webhook
    | Some (id, webhook) =>
        if bool_decide (Webhook.status webhook = DELETED) then mthrow not_found_webhook
        else
          secret ← (if bool_decide (UpdateInput.rotateSecret input = Some true)
                    then Some <$> generateSecret
                    else mret (UpdateInput.secret input));
          db_webhook_update id (update_data input secret webhook)
    end).

Definition setStatus_input : z.ZodType SetStatusInput.t :=
  z.object (λ p o,
    z.map_result (λ '(id, status),
        {| SetStatusInput.id := id; SetStatusInput.status := status |})
      (z.both (z.prop "id" z.string p o)
              (z.prop "status"
                 (z.refine (z.nativeEnum WebhookStatus_members)
                    (λ s, bool_decide (s ≠ DELETED))
                    "Deletion not supported here") p o))).

(** The [data] of the update in [setStatus]. *)
Definition setStatus_data (input : SetStatusInput.t) (webhook row : Webhook.t) : Webhook.t :=
  {| Webhook.status := SetStatusInput.status input;
     Webhook.consecutiveFailures :=
       if bool_decide (SetStatusInput.status input = ACTIVE)
       then 0
       else Webhook.consecutiveFailures webhook;
     Webhook.teamId := Webhook.teamId row;
     Webhook.url := Webhook.url row;
     Webhook.description := Webhook.description row;
     Webhook.secret := Webhook.secret row;
     Webhook.eventTypes := Webhook.eventTypes row;
     Webhook.createdByUserId := Webhook.createdByUserId row |}.

Definition setStatus : Ctx → JsValue → M (Row Webhook.t) :=
  procedure setStatus_input (λ ctx input,
    found ← db_webhook_findFirst (SetStatusInput.id input) (Team.id (team ctx));
    match found with
    | None => mthrow not_found_webhook
    | Some (id, webhook) =>
        if bool_decide (Webhook.status webhook = DELETED) then mthrow not_found_webhook
        else db_webhook_update id (setStatus_data input webhook)
    end).

Definition listCalls_input : z.ZodType ListCallsInput.t :=
  z.object (λ p o,
    z.map_result (λ '(webhookId, (status, (limit, cursor))),
        {| ListCallsInput.webhookId := webhookId; ListCallsInput.status := status;
           ListCallsInput.limit := limit; ListCallsInput.cursor := cursor |})
      (z.both (z.prop "webhookId" (z.optional z.string) p o)
      (z.both (z.prop "status" (z.optional (z.nativeEnum WebhookCallStatus_members)) p o)
      (z.both (z.prop "limit"
                 (z.default (z.number_max (z.number_min z.number 1) 50) (JsNumber 20)) p o)
              (z.prop "cursor" (z.optional z.string) p o))))).

(** [{ teamId: ctx.team.id, webhookId: input.webhookId, status:
    input.status }]: a filter left [undefined] filters nothing. *)
Definition calls_of (teamId : Z) (webhookId : option string)
    (status : option WebhookCallStatus) (c : WebhookCall.t) : bool :=
  bool_decide (WebhookCall.teamId c = teamId)
  && match webhookId with
     | Some w => bool_decide (WebhookCall.webhookId c = w)
     | None => true
     end
  && match status with
     | Some s => bool_decide (WebhookCall.status c = s)
     | None => true
     end.

(** [input.cursor ? { id: input.cursor } : undefined]: the empty
    string is no cursor. *)
Definition cursor_of (cursor : option string) : option string :=
  match cursor with
  | Some c => if bool_decide (c = "") then None else Some c
  | None => None
  end.

(** [calls.pop()]: the last element, and the array without it. *)
Definition pop {A} (l : list A) : option A * list A := (last l, removelast l).

Definition listCalls : Ctx → JsValue → M ListCallsOutput.t :=
  procedure listCalls_input (λ ctx input,
    calls ← gets (λ st,
      prisma.findMany
        (calls_of (Team.id (team ctx)) (ListCallsInput.webhookId input)
           (ListCallsInput.status input))
        (prisma.desc WebhookCall.createdAt)
        (Z.to_nat (ListCallsInput.limit input + 1))
        (cursor_of (ListCallsInput.cursor input))
        (webhookCall st));
    let '(calls, nextCursor) :=
      if bool_decide (ListCallsInput.limit input < Z.of_nat (length calls)) then
        let '(next, calls) := pop calls in
        (calls, fst <$> next)
      else (calls, None) in
    mret {| ListCallsOutput.items := calls; ListCallsOutput.nextCursor := nextCursor |}).

Definition id_input : z.ZodType string :=
  z.object (λ p o, z.prop "id" z.string p o).

Definition not_found_call : Thrown := TRPCError NOT_FOUND "Webhook call not found".

Definition getCall : Ctx → JsValue → M (Row WebhookCall.t) :=
  procedure id_input (λ ctx id,
    call ← gets (λ st,
      prisma.findFirst id (λ c, bool_decide (WebhookCall.teamId c = Team.id (team ctx)))
        (webhookCall st));
    match call with
    | None => mthrow not_found_call
    | Some call => mret call
    end).

(** *** Requests and what they leave *)

(** A subscription the team of the request cannot reach: there is
    none of that id, or it is another team's, or it is DELETED. *)
Definition unreachable (ctx : Ctx) (id : string) (st : World) : Prop :=
  webhook st !! id = None
  ∨ ∃ w, webhook st !! id = Some w
         ∧ (Webhook.teamId w ≠ Team.id (team ctx) ∨ Webhook.status w = DELETED).

(** The secret [create] stores, and the entropy it leaves. *)
Definition created_secret (input : CreateInput.t) (st : World) : string * Entropy :=
  match CreateInput.secret input with
  | Some s => (s, entropy st)
  | None => generateSecret_draw (entropy st)
  end.

(** The secret an accepted [update] writes, if any, and the entropy
    it leaves. *)
Definition update_secret (input : UpdateInput.t) (st : World) : option string * Entropy :=
  if bool_decide (UpdateInput.rotateSecret input = Some true) then
    let '(token, e) := generateSecret_draw (entropy st) in (Some token, e)
  else (UpdateInput.secret input, entropy st).

(** The issue [refine] raises in [setStatus_input]. *)
Definition deletion_issue : z.ZodIssue :=
  {| z.path := [z.Key "status"]; z.code := z.custom "Deletion not supported here" |}.

(** The state a request to a managing procedure leaves. *)
Definition after (ctx : Ctx) (m : Mutation) (st : World) : World :=
  match m with
  | Create raw => (create ctx raw st).2
  | Update raw => (update ctx raw st).2
  | SetStatus raw => (setStatus ctx raw st).2
  end.

(** What a request can have done to [db.webhook]: nothing; or added
    the row of an accepted [create] under an id not in use; or
    overwritten a reachable row with the data of an accepted [update]
    or [setStatus]. *)
Inductive effect (ctx : Ctx) (st : World) : Mutation → gmap string Webhook.t → Prop :=
| effect_none m : effect ctx st m (webhook st)
| effect_create raw input id :
    z.parse create_input raw = z.OK input →
    webhook st !! id = None →
    effect ctx st (Create raw)
      (<[id := create_data ctx input (created_secret input st).1]> (webhook st))
| effect_update raw input w :
    z.parse update_input raw = z.OK input →
    webhook st !! UpdateInput.id input = Some w →
    Webhook.teamId w = Team.id (team ctx) →
    Webhook.status w ≠ DELETED →
    effect ctx st (Update raw)
      (<[UpdateInput.id input := update_data input (update_secret input st).1 w w]>
         (webhook st))
| effect_setStatus raw input w :
    z.parse setStatus_input raw = z.OK input →
    webhook st !! SetStatusInput.id input = Some w →
    Webhook.teamId w = Team.id (team ctx) →
    Webhook.status w ≠ DELETED →
    effect ctx st (SetStatus raw)
      (<[SetStatusInput.id input := setStatus_data input w w]> (webhook st)).

(** The requests of a history, each with its context, one after the
    other. *)
Definition replay (history : list (Ctx * Mutation)) (st : World) : World :=
  foldl (λ st '(ctx, m), after ctx m st) st history.

(** The secrets of a table have sixteen characters at least. *)
Definition secrets_long (t : gmap string Webhook.t) : Prop :=
  map_Forall (λ _ w, (16 ≤ String.length (Webhook.secret w))%nat) t.

(** The event types of a table's rows are lists, not empty, of names
    of the enumeration. *)
Definition eventTypes_closed (t : gmap string Webhook.t) : Prop :=
  map_Forall (λ _ w,
    Webhook.eventTypes w ≠ [] ∧ Forall (.∈ WEBHOOK_EVENT_TYPES) (Webhook.eventTypes w)) t.

End Router.

Arguments World Entropy : clear implicits.
Arguments M Entropy A : clear implicits.
Arguments create isUrl WEBHOOK_EVENT_TYPES {Entropy} generateSecret_draw
  consecutiveFailures_default ctx raw st : rename.
Arguments update isUrl WEBHOOK_EVENT_TYPES {Entropy} generateSecret_draw ctx raw st : rename.
Arguments setStatus {Entropy} ctx raw st : rename.
Arguments listCalls {Entropy} ctx raw st : rename.
Arguments getCall {Entropy} ctx raw st : rename.
Arguments webhook {Entropy} st : rename.
Arguments webhookCall {Entropy} st : rename.
Arguments entropy {Entropy} st : rename.
Arguments with_webhook {Entropy} t st.
Arguments held {Entropy} teamId st.
Arguments unreachable {Entropy} ctx id st.
Arguments created_secret {Entropy} generateSecret_draw input st.
Arguments update_secret {Entropy} generateSecret_draw input st.
Arguments after isUrl WEBHOOK_EVENT_TYPES {Entropy} generateSecret_draw
  consecutiveFailures_default ctx m st : rename.
Arguments replay isUrl WEBHOOK_EVENT_TYPES {Entropy} generateSecret_draw
  consecutiveFailures_default history st : rename.
Arguments effect isUrl WEBHOOK_EVENT_TYPES {Entropy} generateSecret_draw
  consecutiveFailures_default ctx st _ _ : rename.
Arguments effect_none {_ _ _ _ _} ctx st m.
Arguments effect_create {_ _ _ _ _} ctx st raw input id _ _.
Arguments effect_update {_ _ _ _ _} ctx st raw input w _ _ _ _.
Arguments effect_setStatus {_ _ _ _ _} ctx st raw input w _ _ _ _.
Arguments create_data consecutiveFailures_default ctx input secret : rename.
Arguments with_entropy {Entropy} e st.

(** ** A small installation to run the procedures on *)

Module Sample.

Definition isUrl (s : string) : bool := String.prefix "https://" s.

Definition WEBHOOK_EVENT_TYPES : list string := ["email.sent"; "email.bounced"]%string.

(** Tokens numbered by the draws made so far. *)
Definition generateSecret_draw (n : nat) : string * nat :=
  ("whsec_0123456789abcdef_" +:+ pretty n, S n).

Definition acme : Team.t := {| Team.id := 7; Team.isActive := true; Team.plan := "BASIC" |}.
Definition hobby : Team.t := {| Team.id := 8; Team.isActive := true; Team.plan := "FREE" |}.

Definition ctx_acme : Ctx := {| team := acme; session_user_id := 1 |}.
Definition ctx_hobby : Ctx := {| team := hobby; session_user_id := 2 |}.

Definition hook (teamId : Z) (status : WebhookStatus) (failures : Z) : Webhook.t :=
  {| Webhook.teamId := teamId; Webhook.url := "https://example.com/hook";
     Webhook.description := None; Webhook.secret := "0123456789abcdefXYZ";
     Webhook.eventTypes := ["email.sent"]%string; Webhook.status := status;
     Webhook.consecutiveFailures := failures; Webhook.createdByUserId := 1 |}.

Definition call (teamId : Z) (webhookId : string) (status : WebhookCallStatus)
    (createdAt : Z) : WebhookCall.t :=
  {| WebhookCall.teamId := teamId; WebhookCall.webhookId := webhookId;
     WebhookCall.status := status; WebhookCall.createdAt := createdAt |}.

Definition empty : World nat := {| webhook := ∅; webhookCall := ∅; entropy := 0%nat |}.

(** Acme holds an active, a paused and a deleted subscription; its
    first one has four calls on record. *)
Definition busy : World nat :=
  {| webhook :=
       <["wh_a" := hook 7 ACTIVE 4]>
         (<["wh_p" := hook 7 PAUSED 9]>
            (<["wh_d" := hook 7 DELETED 2]> (<["wh_h" := hook 8 ACTIVE 0]> ∅)));
     webhookCall :=
       <["c1" := call 7 "wh_a" SUCCESS 100]>
         (<["c2" := call 7 "wh_a" FAILED 200]>
            (<["c3" := call 7 "wh_a" SUCCESS 300]>
               (<["c4" := call 7 "wh_a" FAILED 400]>
                  (<["c5" := call 8 "wh_h" SUCCESS 250]> ∅))));
     entropy := 0%nat |}.

(** The procedures of this installation; a new subscription starts
    with no failure. *)
Definition create := create isUrl WEBHOOK_EVENT_TYPES generateSecret_draw 0.
Definition update := update isUrl WEBHOOK_EVENT_TYPES generateSecret_draw.
Definition after := after isUrl WEBHOOK_EVENT_TYPES generateSecret_draw 0.

(** Requests. *)
Definition create_request : JsValue :=
  JsObject [("url", JsString "https://example.com/in");
            ("eventTypes", JsArray [JsString "email.sent"])]%string.

Definition create_accepted : CreateInput.t :=
  {| CreateInput.url := "https://example.com/in"; CreateInput.description := None;
     CreateInput.eventTypes := ["email.sent"]%string; CreateInput.secret := None |}.

Definition no_events_request : JsValue :=
  JsObject [("url", JsString "https://example.com/in"); ("eventTypes", JsArray [])]%string.

Definition status_request (id status : string) : JsValue :=
  JsObject [("id", JsString id); ("status", JsString status)]%string.

Definition retarget_request (id : string) : JsValue :=
  JsObject [("id", JsString id); ("url", JsString "https://example.com/new")]%string.

Definition retarget_accepted (id : string) : UpdateInput.t :=
  {| UpdateInput.id := id; UpdateInput.url := Some "https://example.com/new"%string;
     UpdateInput.description := None; UpdateInput.eventTypes := None;
     UpdateInput.rotateSecret := None; UpdateInput.secret := None |}.

Definition rotate_request : JsValue :=
  JsObject [("id", JsString "wh_a"); ("rotateSecret", JsBoolean true);
            ("secret", JsString "a-secret-of-the-caller")]%string.

Definition rotate_accepted : UpdateInput.t :=
  {| UpdateInput.id := "wh_a"; UpdateInput.url := None;
     UpdateInput.description := None; UpdateInput.eventTypes := None;
     UpdateInput.rotateSecret := Some true;
     UpdateInput.secret := Some "a-secret-of-the-caller"%string |}.

Definition page_request : JsValue :=
  JsObject [("webhookId", JsString "wh_a"); ("limit", JsNumber 2)]%string.

Definition page_accepted : ListCallsInput.t :=
  {| ListCallsInput.webhookId := Some "wh_a"%string; ListCallsInput.status := None;
     ListCallsInput.limit := 2; ListCallsInput.cursor := None |}.

Definition call_request (id : string) : JsValue := JsObject [("id", JsString id)]%string.

End Sample.

(** ** The query [list] of the router *)

Module webhookRouter.
Section list.
Context {Entropy : Type}.

(** The [createdAt] column of [db.webhook]: the time the store has on
    record for the row of an id. *)
Variable createdAt : string → Z.

(** [orderBy: { createdAt: "desc" }] on [db.webhook]. *)
Definition newest_first : relation (Row Webhook.t) :=
  λ a b, createdAt b.1 ≤ createdAt a.1.

#[global] Instance newest_first_dec : RelDecision newest_first.
Proof. intros a b; unfold newest_first; apply _. Defined.

(** [list]: a [findMany] with neither [take] nor [cursor], so all the
    rows it has to choose from. *)
Definition list (ctx : Ctx) : M Entropy (list (Row Webhook.t)) :=
  gets Entropy (λ st,
    prisma.ordered (held_by (Team.id (team ctx))) newest_first None (webhook st)).
End list.
End webhookRouter.

(** ** The one-click unsubscribe route

    [apps/web/src/app/api/unsubscribe-oneclick/route.ts]: the handler
    [POST], over the state of the campaign service and the log. *)

Module unsubscribe_oneclick.
Import Stdlib.Strings.Ascii.

(** The contact [unsubscribeContactFromLink] returns, with the field the
    route reads. *)
Module Contact.
Record t := { id : string }.
End Contact.

(** A line of the log: [logger.warn(message)], [logger.info(fields,
    message)], [logger.error({ error }, message)]. *)
Inductive LogEntry :=
| warn (message : string)
| info (contactId : string) (campaignId : option string)
    (contactBookId list_ : option string) (message : string)
| error (thrown : string) (message : string).

Record NextRequest := { url : string }.

(** [NextResponse.json(body, { status })]. *)
Record NextResponse := { body : JsValue; status : Z }.

(** [searchParams.get(name)]: the first value of that name, [null] when
    there is none. *)
Fixpoint searchParams_get (name : string) (params : list (string * string)) : option string :=
  match params with
  | [] => None
  | (k, v) :: rest => if decide (k = name) then Some v else searchParams_get name rest
  end.

(** [!value] of a string or [null]: true of [null] and of the empty
    string. *)
Definition falsy (value : option string) : bool :=
  match value with
  | None => true
  | Some v => bool_decide (v = ""%string)
  end.

(** [s.split(sep)] for a separator of one character. *)
Fixpoint split (sep : Ascii.ascii) (s : string) : list string :=
  match s with
  | EmptyString => [EmptyString]
  | String c rest =>
      if decide (c = sep) then EmptyString :: split sep rest
      else match split sep rest with
           | piece :: pieces => String c piece :: pieces
           | [] => [String c EmptyString]
           end
  end.

(** A value or [null] inside a template literal. *)
Definition interpolate (value : option string) : string := default "null"%string value.

Section route.

(** [new URL(s).searchParams] as the list of its pairs, or the message
    of the error [new URL] throws. *)
Variable URL_searchParams : string → string + list (string * string).

(** What the campaign service can see and change. *)
Variable Service : Type.

(** [unsubscribeContactFromLink] of [~/server/service/campaign-service]:
    it returns the contact, or throws; what it throws is known to the
    route by the message it logs. *)
Variable unsubscribeContactFromLink :
  string → string → option string → option string → Service → (string + Contact.t) * Service.

Record State := { service : Service; log : list LogEntry }.

Definition logged (entry : LogEntry) (st : State) : State :=
  {| service := service st; log := log st ++ [entry] |}.

(** The [catch] of the handler. *)
Definition failed (thrown : string) (st : State) : NextResponse * State :=
  ({| body := JsObject [("error", JsString "Failed to process unsubscribe request")]%string;
      status := 500 |},
   logged (error thrown "One-click unsubscribe failed") st).

Definition POST (request : NextRequest) (st : State) : NextResponse * State :=
  match URL_searchParams (url request) with
  | inl thrown => failed thrown st
  | inr searchParams =>
      let id := searchParams_get "id" searchParams in
      let hash := searchParams_get "hash" searchParams in
      let contactBookId := searchParams_get "contactBookId" searchParams in
      let list_ := searchParams_get "list" searchParams in
      if falsy id || falsy hash then
        ({| body := JsObject [("error", JsString "Invalid unsubscribe link")]%string;
            status := 400 |},
         logged
           (warn ("One-click unsubscribe: Missing id or hash id: " +:+ interpolate id
                  +:+ " hash: " +:+ interpolate hash +:+ " url: " +:+ url request)) st)
      else
        let id := default ""%string id in
        let hash := default ""%string hash in
        match unsubscribeContactFromLink id hash contactBookId list_ (service st) with
        | (inr contact, service') =>
            ({| body := JsObject [("success", JsBoolean true);
                                  ("message", JsString "Successfully unsubscribed")]%string;
                status := 200 |},
             logged
               (info (Contact.id contact) (split "-"%char id !! 1%nat) contactBookId list_
                  "One-click unsubscribe successful")
               {| service := service'; log := log st |})
        | (inl thrown, service') => failed thrown {| service := service'; log := log st |}
        end
  end.
End route.
End unsubscribe_oneclick.

(** ** The store of the upgrade modal

    [apps/web/src/store/upgradeModalStore.ts]. *)

Module upgradeModalStore.
Section store.

(** [LimitReason] of [~/lib/constants/plans]. *)
Variable LimitReason : Type.

Record State := { isOpen : bool; reason : option LimitReason }.

(** What an action hands to [set]: the fields it names. *)
Record Partial := { set_isOpen : option bool; set_reason : option (option LimitReason) }.

(** zustand's [set]: the fields named replace those of the state. *)
Definition set (partial : Partial) (s : State) : State :=
  {| isOpen := default (isOpen s) (set_isOpen partial);
     reason := default (reason s) (set_reason partial) |}.

Definition initial : State := {| isOpen := false; reason := None |}.

Definition openModal (modalReason : option LimitReason) : State → State :=
  set {| set_isOpen := Some true; set_reason := Some modalReason |}.

Definition closeModal : State → State :=
  set {| set_isOpen := Some false; set_reason := Some None |}.

(** A call of one of the two actions. *)
Inductive Action :=
| OpenModal (modalReason : option LimitReason)
| CloseModal.

Definition dispatch (s : State) (a : Action) : State :=
  match a with
  | OpenModal modalReason => openModal modalReason s
  | CloseModal => closeModal s
  end.
End store.
End upgradeModalStore.

(** ** The email composer: [insertVariable]

    The handler of the "Insert data" buttons of [EmailComposer], over
    the state of the component it closes over.  A JavaScript string is
    the list of its UTF-16 code units here, so that [slice], [+] and
    [length] are the list's.  State set with [setHtmlValue] is read as
    set at once, and the frame asked for with [requestAnimationFrame]
    as run. *)

Module EmailComposer.

Abbreviation Text := (list N).

Inductive ComposerMode := design | html | preview.

Global Instance ComposerMode_eq_dec : EqDecision ComposerMode.
Proof. solve_decision. Defined.

(** The selection of the HTML textarea. *)
Record Textarea := { selectionStart : nat; selectionEnd : nat }.

(** [s.slice(start, end)] and [s.slice(start)] for indices that are
    not negative. *)
Definition slice (s : Text) (start end_ : nat) : Text := drop start (take end_ s).
Definition slice_from (s : Text) (start : nat) : Text := drop start s.

(** The code units of ["{{"], ["}}"] and ["<p></p>"]. *)
Definition braces_open : Text := [123; 123]%N.
Definition braces_close : Text := [125; 125]%N.
Definition empty_paragraph : Text := [60; 112; 62; 60; 47; 112; 62]%N.

(** [value || "<p></p>"]. *)
Definition or_empty_paragraph (value : Text) : Text :=
  match value with
  | [] => empty_paragraph
  | _ => value
  end.

Section component.

(** The tiptap editor, with the three calls the handler makes. *)
Variable Editor : Type.
Variable setContent : Text → Editor → Editor.
Variable insertContent : Text → Editor → Editor.
Variable getHTML : Editor → Text.

(** What the handler closes over: [mode], [htmlValue], the two refs,
    the editor if there is one, and the values [onChange] has been
    called with. *)
Record Composer := {
  mode : ComposerMode;
  htmlValue : Text;
  htmlTextareaRef : option Textarea;
  skipNextUpdate : bool;
  editor : option Editor;
  onChange : list Text;
}.

Definition insertVariable (variable : Text) (c : Composer) : Composer :=
  let token := braces_open ++ variable ++ braces_close in
  match (if decide (mode c = html) then htmlTextareaRef c else None) with
  | Some textarea =>
      let nextValue :=
        slice (htmlValue c) 0 (selectionStart textarea) ++ token
        ++ slice_from (htmlValue c) (selectionEnd textarea) in
      let cursor := (selectionStart textarea + length token)%nat in
      {| mode := mode c;
         htmlValue := nextValue;
         htmlTextareaRef := Some {| selectionStart := cursor; selectionEnd := cursor |};
         skipNextUpdate := true;
         editor := setContent (or_empty_paragraph nextValue) <$> editor c;
         onChange := onChange c ++ [nextValue] |}
  | None =>
      match editor c with
      | Some e =>
          let e := insertContent token e in
          let nextHtml := getHTML e in
          {| mode := mode c;
             htmlValue := nextHtml;
             htmlTextareaRef := htmlTextareaRef c;
             skipNextUpdate := true;
             editor := Some e;
             onChange := onChange c ++ [nextHtml] |}
      | None =>
          let nextValue := htmlValue c ++ token in
          {| mode := mode c;
             htmlValue := nextValue;
             htmlTextareaRef := htmlTextareaRef c;
             skipNextUpdate := skipNextUpdate c;
             editor := None;
             onChange := onChange c ++ [nextValue] |}
      end
  end.
End component.
End EmailComposer.

(** ** A request with its outcome *)

(** What a request to a managing procedure returns or throws, and the
    state it leaves. *)
Definition run (isUrl : string → bool) (WEBHOOK_EVENT_TYPES : list string) {Entropy : Type}
    (generateSecret_draw : Entropy → string * Entropy) (consecutiveFailures_default : Z)
    (ctx : Ctx) (m : Mutation) (st : World Entropy)
    : Outcome (Row Webhook.t) * World Entropy :=
  match m with
  | Create raw =>
      create isUrl WEBHOOK_EVENT_TYPES generateSecret_draw consecutiveFailures_default
        ctx raw st
  | Update raw => update isUrl WEBHOOK_EVENT_TYPES generateSecret_draw ctx raw st
  | SetStatus raw => setStatus ctx raw st
  end.

(** The listing a [listCalls] input asks a page of. *)
Definition calls_listing {Entropy : Type} (ctx : Ctx) (input : ListCallsInput.t)
    (st : World Entropy) : list (Row WebhookCall.t) :=
  prisma.ordered
    (calls_of (Team.id (team ctx)) (ListCallsInput.webhookId input)
       (ListCallsInput.status input))
    (prisma.desc WebhookCall.createdAt)
    (cursor_of (ListCallsInput.cursor input)) (webhookCall st).

(** ** Requests, read property by property

    What the schemas of [update] and [listCalls] let pass, said of the
    request itself, and what a [listCalls] request asks for, said of
    the table itself: the statements below hold the schemas and the
    query against these. *)

(** A request [update] takes, and the input it is taken for: an object
    with a string for [id]; for [url] nothing, or a string that passes
    the URL test; for [description] nothing, [null], or a string; for
    [eventTypes] nothing, or an array, not empty, of strings of the
    enumeration; for [rotateSecret] nothing, or a boolean; for [secret]
    nothing, or a string of sixteen characters at least. *)
Definition update_request (isUrl : string → bool) (WEBHOOK_EVENT_TYPES : list string)
    (raw : JsValue) (input : UpdateInput.t) : Prop :=
  (∃ props, raw = JsObject props)
  ∧ get "id" raw = JsString (UpdateInput.id input)
  ∧ match get "url" raw with
    | undefined => UpdateInput.url input = None
    | JsString u => isUrl u = true ∧ UpdateInput.url input = Some u
    | _ => False
    end
  ∧ match get "description" raw with
    | undefined => UpdateInput.description input = None
    | null => UpdateInput.description input = Some None
    | JsString d => UpdateInput.description input = Some (Some d)
    | _ => False
    end
  ∧ match get "eventTypes" raw with
    | undefined => UpdateInput.eventTypes input = None
    | JsArray elements =>
        ∃ names, elements = JsString <$> names ∧ names ≠ []
                 ∧ Forall (.∈ WEBHOOK_EVENT_TYPES) names
                 ∧ UpdateInput.eventTypes input = Some names
    | _ => False
    end
  ∧ match get "rotateSecret" raw with
    | undefined => UpdateInput.rotateSecret input = None
    | JsBoolean b => UpdateInput.rotateSecret input = Some b
    | _ => False
    end
  ∧ match get "secret" raw with
    | undefined => UpdateInput.secret input = None
    | JsString s => (16 ≤ String.length s)%nat ∧ UpdateInput.secret input = Some s
    | _ => False
    end.




(** ** More of the small installation *)

Module SampleApp.

Definition run := run Sample.isUrl Sample.WEBHOOK_EVENT_TYPES Sample.generateSecret_draw 0.
Definition replay := replay Sample.isUrl Sample.WEBHOOK_EVENT_TYPES Sample.generateSecret_draw 0.

(** When the subscriptions of the sample store were created. *)
Definition createdAt (id : string) : Z :=
  if decide (id = "wh_a"%string) then 10
  else if decide (id = "wh_p"%string) then 30
  else 20.

(** A team on a paid plan that is not active, with one subscription. *)
Definition idle_team : Team.t := {| Team.id := 9; Team.isActive := false; Team.plan := "BASIC" |}.
Definition ctx_idle : Ctx := {| team := idle_team; session_user_id := 3 |}.
Definition idle : World nat :=
  {| webhook := <["wh_i" := Sample.hook 9 ACTIVE 0]> ∅; webhookCall := ∅; entropy := 0%nat |}.

Definition null_description_request : JsValue :=
  JsObject [("url", JsString "https://example.com/in"); ("description", null);
            ("eventTypes", JsArray [JsString "email.sent"])]%string.

Definition page_size_request (limit : Z) : JsValue :=
  JsObject [("limit", JsNumber limit)]%string.

Definition cursor_request (cursor : string) : JsValue :=
  JsObject [("webhookId", JsString "wh_a"); ("limit", JsNumber 2);
            ("cursor", JsString cursor)]%string.

Definition cursor_accepted (cursor : option string) : ListCallsInput.t :=
  {| ListCallsInput.webhookId := Some "wh_a"%string; ListCallsInput.status := None;
     ListCallsInput.limit := 2; ListCallsInput.cursor := cursor |}.




(** A subscription with a description, and the request that takes the
    description away. *)
Definition described : World nat :=
  {| webhook :=
       <["wh_n" := {| Webhook.teamId := 7; Webhook.url := "https://example.com/hook";
                      Webhook.description := Some "billing"%string;
                      Webhook.secret := "0123456789abcdefXYZ";
                      Webhook.eventTypes := ["email.sent"]%string;
                      Webhook.status := ACTIVE; Webhook.consecutiveFailures := 0;
                      Webhook.createdByUserId := 1 |}]> ∅;
     webhookCall := ∅; entropy := 0%nat |}.

Definition clear_description_request : JsValue :=
  JsObject [("id", JsString "wh_n"); ("description", null)]%string.

Definition clear_description_accepted : UpdateInput.t :=
  {| UpdateInput.id := "wh_n"; UpdateInput.url := None;
     UpdateInput.description := Some None; UpdateInput.eventTypes := None;
     UpdateInput.rotateSecret := None; UpdateInput.secret := None |}.

(** Two links the sample [URL] reads, and a campaign service that
    keeps the ids it has unsubscribed and knows one hash. *)
Definition good_link : string :=
  "https://app.example/api/unsubscribe-oneclick?id=c1-k9&hash=h1&list=news".
Definition short_link : string := "https://app.example/api/unsubscribe-oneclick?hash=h1".

Definition URL_searchParams (url : string) : string + list (string * string) :=
  if decide (url = good_link) then inr [("id", "c1-k9"); ("hash", "h1"); ("list", "news")]%string
  else if decide (url = short_link) then inr [("hash", "h1")]%string
  else inl "Invalid URL"%string.

Definition unsubscribeContactFromLink (id hash : string) (contactBookId list_ : option string)
    (done : list string) : (string + unsubscribe_oneclick.Contact.t) * list string :=
  if decide (hash = "h1"%string)
  then (inr {| unsubscribe_oneclick.Contact.id := "c1" |}, id :: done)
  else (inl "Invalid unsubscribe link"%string, done).

Definition POST :=
  unsubscribe_oneclick.POST URL_searchParams (list string) unsubscribeContactFromLink.

Definition quiet : unsubscribe_oneclick.State (list string) :=
  {| unsubscribe_oneclick.service := []; unsubscribe_oneclick.log := [] |}.

(** An editor that holds its content as it is given. *)
Definition insertVariable :=
  EmailComposer.insertVariable (list N) (λ value _, value) (λ token e, e ++ token) (λ e, e).

(** The text ["Hi !"] in the HTML textarea, the caret before the
    [!], and the variable ["ab"]. *)
Definition composing : EmailComposer.Composer (list N) :=
  {| EmailComposer.mode := EmailComposer.html;
     EmailComposer.htmlValue := [72; 105; 32; 33]%N;
     EmailComposer.htmlTextareaRef :=
       Some {| EmailComposer.selectionStart := 3; EmailComposer.selectionEnd := 3 |};
     EmailComposer.skipNextUpdate := false;
     EmailComposer.editor := Some [72; 105; 32; 33]%N;
     EmailComposer.onChange := [] |}.

End SampleApp.

(** * Properties *)

#[local] Set Warnings "-clear-no-such-hyp".

(** ** What an accepted input tells about the request *)

Section zod_facts.
Context {A B : Type}.
Implicit Types (p : list z.PathSegment) (v : JsValue).

Lemma both_OK (a : z.ParseReturnType A) (b : z.ParseReturnType B) x y :
  z.both a b = z.OK (x, y) ↔ a = z.OK x ∧ b = z.OK y.
Proof. destruct a, b; simpl; naive_solver. Qed.

Lemma both_INVALID_l (b : z.ParseReturnType B) issues :
  ∃ issues', z.both (@z.INVALID A issues) b = z.INVALID issues' ∧ issues ⊆ issues'.
Proof.
  destruct b as [y | j]; simpl; eexists; (split; [done |]); set_solver.
Qed.

Lemma both_INVALID_r (a : z.ParseReturnType A) issues :
  ∃ issues', z.both a (@z.INVALID B issues) = z.INVALID issues' ∧ issues ⊆ issues'.
Proof.
  destruct a as [x | i]; simpl; eexists; (split; [done |]); set_solver.
Qed.

Lemma map_result_OK (f : A → B) (a : z.ParseReturnType A) y :
  z.map_result f a = z.OK y ↔ ∃ x, a = z.OK x ∧ y = f x.
Proof. destruct a; simpl; naive_solver. Qed.

Lemma map_result_INVALID (f : A → B) issues :
  z.map_result f (z.INVALID issues) = z.INVALID issues.
Proof. done. Qed.

Lemma check_OK (t : z.ZodType A) holds c p v a :
  z.check t holds c p v = z.OK a ↔ t p v = z.OK a ∧ holds a = true.
Proof.
  unfold z.check, z.addIssue. destruct (t p v) as [x | i].
  - destruct (holds x) eqn:Hx; split.
    + by intros [= <-].
    + by intros [[= <-] _].
    + intros [=].
    + intros [[= <-] ?]; congruence.
  - split; [intros [=] | intros [[=] _]].
Qed.

Lemma optional_OK (t : z.ZodType A) p v o :
  z.optional t p v = z.OK o ↔
    (v = undefined ∧ o = None) ∨ (v ≠ undefined ∧ ∃ a, t p v = z.OK a ∧ o = Some a).
Proof.
  destruct v; simpl;
    try (destruct (t p _) as [x | i]; split;
         [intros [= <-]; right; eauto | intros [[[=] _] | [_ (a & [= <-] & ->)]]; done
         | intros [=] | intros [[[=] _] | [_ (a & [=] & _)]]]).
  split; [intros [= <-]; by left | intros [[_ ->] | [[] _]]; done].
Qed.

Lemma optional_undefined (t : z.ZodType A) p : z.optional t p undefined = z.OK None.
Proof. done. Qed.
End zod_facts.

Lemma string_OK p v s : z.string p v = z.OK s ↔ v = JsString s.
Proof. destruct v; unfold z.string, z.addIssue; naive_solver. Qed.

Lemma string_min_OK n p v s :
  z.string_min z.string n p v = z.OK s ↔ v = JsString s ∧ (n ≤ String.length s)%nat.
Proof.
  unfold z.string_min. rewrite check_OK, string_OK, bool_decide_eq_true. done.
Qed.

Lemma enum_OK values p v s : z.enum values p v = z.OK s ↔ v = JsString s ∧ s ∈ values.
Proof.
  unfold z.enum, z.addIssue. destruct v; try naive_solver.
  case_bool_decide; naive_solver.
Qed.

(** The elements an array schema accepts are those the element schema
    accepts, one by one. *)
Lemma elements_from_OK {A} (t : z.ZodType A) p l : ∀ i xs,
  z.elements_from t p i l = z.OK xs ↔
    Forall2 (λ '(j, v) x, t (p ++ [z.Index j]) v = z.OK x) (imap (λ j v, ((i + j)%nat, v)) l) xs.
Proof.
  induction l as [| v l IH]; intros i xs; simpl.
  - split; [intros [= <-]; constructor | intros H; by inversion H].
  - rewrite map_result_OK. split.
    + intros [[x xr] [H ->]]. apply both_OK in H as [Hx Hr]. simpl.
      constructor; [by rewrite Nat.add_0_r |].
      apply IH in Hr. erewrite imap_ext; [exact Hr |].
      intros j y _. simpl. f_equal. lia.
    + intros H. inversion H as [| [j v'] x ? xr Hx Hr]; subst.
      exists (x, xr). split; [| done]. apply both_OK. split.
      * by rewrite Nat.add_0_r in Hx.
      * apply IH. erewrite imap_ext; [exact Hr |].
        intros j y _. simpl. f_equal. lia.
Qed.

Lemma array_min_OK {A} (t : z.ZodType A) n p v xs :
  z.array_min t n p v = z.OK xs ↔
    ∃ l, v = JsArray l ∧ (n ≤ length l)%nat ∧ z.elements_from t p 0 l = z.OK xs.
Proof.
  unfold z.array_min, z.addIssue. destruct v; try naive_solver.
  rewrite map_result_OK. split.
  - intros [[[] ys] [H ->]]. apply both_OK in H as [Hn Hl].
    case_bool_decide; [| done]. eauto.
  - intros (l & [= <-] & Hn & Hl). exists ((), xs). split; [| done].
    apply both_OK. by rewrite bool_decide_eq_true_2.
Qed.

(** An accepted list of event types is as long as the array sent,
    which has [n] elements at least, and holds its strings, all of the
    enumeration. *)
Lemma array_min_enum_OK values n p v xs :
  z.array_min (z.enum values) n p v = z.OK xs ↔
    v = JsArray (JsString <$> xs) ∧ (n ≤ length xs)%nat ∧ Forall (.∈ values) xs.
Proof.
  rewrite array_min_OK. split.
  - intros (l & -> & Hn & Hl). apply elements_from_OK in Hl.
    assert (l = JsString <$> xs ∧ Forall (.∈ values) xs) as [-> ?].
    { clear Hn. revert Hl. generalize 0%nat. revert xs.
      induction l as [| v l IH]; intros xs i H; inversion H as [| ? x ? xr Hx Hr]; subst.
      - by split.
      - simpl in Hx. apply enum_OK in Hx as [-> ?].
        destruct (IH xr (S i)) as [-> ?].
        { erewrite imap_ext; [exact Hr |]. intros j y _. simpl. f_equal. lia. }
        split; [done | by constructor]. }
    by rewrite length_fmap in Hn.
  - intros (-> & Hn & Hall). exists (JsString <$> xs).
    rewrite length_fmap. split_and!; [done .. |].
    apply elements_from_OK. clear Hn. generalize 0%nat.
    induction Hall as [| x xs Hx Hall IH]; intros i; simpl; constructor.
    + by apply enum_OK.
    + erewrite imap_ext; [apply (IH (S i)) |]. intros j y _. simpl. f_equal. lia.
Qed.

(** ** The tables *)

Section prisma_facts.
Context {R : Type}.
Implicit Types (t : gmap string R) (clause : R → bool).

Lemma create_fresh data t : t !! (prisma.create data t).1.1 = None.
Proof. apply not_elem_of_dom, is_fresh. Qed.

(** A new row counts if and only if the clause holds of it. *)
Lemma count_create clause data t :
  prisma.count clause (prisma.create data t).2
  = if clause data then S (prisma.count clause t) else prisma.count clause t.
Proof.
  pose proof (create_fresh data t) as Hfresh.
  unfold prisma.count, prisma.create in *. cbn [fst snd] in *.
  destruct (clause data) eqn:Hc.
  - rewrite map_filter_insert_True by done.
    apply map_size_insert_None, map_lookup_filter_None. by left.
  - rewrite map_filter_insert_False by (unfold prisma.matching; simpl; congruence).
    by rewrite delete_id.
Qed.

Lemma findFirst_Some id clause t row :
  prisma.findFirst id clause t = Some row ↔
    row.1 = id ∧ t !! id = Some row.2 ∧ clause row.2 = true.
Proof.
  unfold prisma.findFirst. destruct row as [k r]. simpl.
  destruct (t !! id) as [r' |]; [| naive_solver].
  destruct (clause r') eqn:Hc; naive_solver congruence.
Qed.

Lemma findFirst_None id clause t :
  prisma.findFirst id clause t = None ↔
    t !! id = None ∨ ∃ r, t !! id = Some r ∧ clause r = false.
Proof.
  unfold prisma.findFirst. destruct (t !! id) as [r' |]; [| naive_solver].
  destruct (clause r') eqn:Hc; naive_solver congruence.
Qed.
End prisma_facts.

(** ** The rows [findMany] chooses from *)

Section ordered_facts.
Context {R : Type} (column : R → Z).
Implicit Types (t : gmap string R) (clause : R → bool) (rows : list (Row R)).

#[local] Instance desc_transitive : Transitive (prisma.desc column).
Proof. intros a b c. unfold prisma.desc. lia. Qed.

#[local] Instance desc_total : Total (prisma.desc column).
Proof. intros a b. unfold prisma.desc. lia. Qed.

Lemma from_cursor_suffix id rows : prisma.from_cursor id rows `suffix_of` rows.
Proof.
  induction rows as [| r rows IH]; simpl; [done |].
  case_decide; [done | by apply suffix_cons_r].
Qed.

(** With a cursor the listing starts at the row the cursor names. *)
Lemma from_cursor_head id rows r rest :
  prisma.from_cursor id rows = r :: rest → r.1 = id.
Proof.
  induction rows as [| r' rows IH]; simpl; [done |].
  case_decide; [by intros [= -> _] | done].
Qed.

Lemma ordered_elem clause cursor t r :
  r ∈ prisma.ordered clause (prisma.desc column) cursor t →
  t !! r.1 = Some r.2 ∧ clause r.2 = true.
Proof.
  unfold prisma.ordered. intros Hr.
  assert (r ∈ merge_sort (prisma.desc column)
                (filter (prisma.matching clause) (map_to_list t))) as Hin.
  { destruct cursor as [id |]; [| done].
    destruct (from_cursor_suffix id
                (merge_sort (prisma.desc column)
                   (filter (prisma.matching clause) (map_to_list t)))) as [k Hk].
    rewrite Hk. set_solver. }
  rewrite merge_sort_Permutation in Hin.
  apply list_elem_of_filter in Hin as [Hc Hin].
  destruct r as [id r]. by apply elem_of_map_to_list in Hin.
Qed.


End ordered_facts.

(** [pop] on the first [n + 1] elements of a longer list. *)
Lemma pop_take {A} (l : list A) n :
  (n < length l)%nat → pop (take (S n) l) = (l !! n, take n l).
Proof.
  intros Hn. unfold pop. f_equal.
  - rewrite last_lookup, length_take_le by lia. simpl. apply lookup_take_lt. lia.
  - by apply removelast_firstn.
Qed.

(** ** The procedures *)

(** Runs the monad of a request on the state at hand. *)
Ltac run :=
  unfold mbind, M_bind, fmap, M_fmap, mbind, M_bind, mret, M_ret, mthrow, M_throw,
    db_webhook_count, db_webhook_findFirst, gets;
  cbn beta iota.

(** The facts hold of every installation: whatever the URL test, the
    event types, the source of tokens and the default of the failure
    counter are. *)
Section Facts.
Context (isUrl : string → bool) (WEBHOOK_EVENT_TYPES : list string).
Context {Entropy : Type} (generateSecret_draw : Entropy → string * Entropy).
Context (consecutiveFailures_default : Z).

Local Abbreviation create_input := (create_input isUrl WEBHOOK_EVENT_TYPES).
Local Abbreviation update_input := (update_input isUrl WEBHOOK_EVENT_TYPES).
Local Abbreviation create_data := (create_data consecutiveFailures_default).
Local Abbreviation created_secret := (created_secret generateSecret_draw).
Local Abbreviation update_secret := (update_secret generateSecret_draw).
Local Abbreviation after :=
  (after isUrl WEBHOOK_EVENT_TYPES generateSecret_draw consecutiveFailures_default).
Local Abbreviation replay :=
  (replay isUrl WEBHOOK_EVENT_TYPES generateSecret_draw consecutiveFailures_default).
Local Abbreviation effect :=
  (effect isUrl WEBHOOK_EVENT_TYPES generateSecret_draw consecutiveFailures_default).
Local Abbreviation eventTypes_closed := (eventTypes_closed WEBHOOK_EVENT_TYPES).
Local Abbreviation generateSecret := (generateSecret Entropy generateSecret_draw).
Local Abbreviation create :=
  (create isUrl WEBHOOK_EVENT_TYPES generateSecret_draw consecutiveFailures_default).
Local Abbreviation update := (update isUrl WEBHOOK_EVENT_TYPES generateSecret_draw).

Implicit Types (ctx : Ctx) (raw : JsValue) (st : World Entropy).

(** [create], request by request. *)
Lemma create_refused ctx raw st issues :
  z.parse create_input raw = z.INVALID issues →
  create ctx raw st = (Throw (ZodError issues), st).
Proof. intros H. unfold create, procedure. by rewrite H. Qed.

Lemma create_full ctx raw st input :
  z.parse create_input raw = z.OK input →
  (getWebhookLimit (team ctx) ≤ held (Team.id (team ctx)) st)%nat →
  create ctx raw st
  = (Throw (TRPCError FORBIDDEN
       (limit_message (held (Team.id (team ctx)) st) (getWebhookLimit (team ctx)))), st).
Proof.
  intros H Hfull. unfold create, procedure. rewrite H.
  run. by rewrite bool_decide_eq_true_2.
Qed.

Lemma create_room ctx raw st input :
  z.parse create_input raw = z.OK input →
  (held (Team.id (team ctx)) st < getWebhookLimit (team ctx))%nat →
  let '(secret, e) := created_secret input st in
  let '(row, t) := prisma.create (create_data ctx input secret) (webhook st) in
  create ctx raw st = (Return row, with_webhook t (with_entropy e st)).
Proof.
  intros H Hroom. unfold create, procedure, created_secret. rewrite H.
  run. rewrite bool_decide_eq_false_2 by (unfold held in Hroom; lia).
  destruct (CreateInput.secret input) as [s |].
  - unfold db_webhook_create. by destruct st.
  - unfold generateSecret, db_webhook_create.
    by destruct (generateSecret_draw (entropy st)).
Qed.
Lemma getWebhookLimit_cases (t : Team.t) :
  getWebhookLimit t
  = if Team.isActive t && bool_decide (Team.plan t ≠ "FREE")
    then 3%nat else 1%nat.
Proof.
  unfold getWebhookLimit. destruct (Team.isActive t); simpl; [| done].
  destruct (String.eqb_spec (Team.plan t) "FREE") as [Heq | Hne].
  - by rewrite bool_decide_eq_false_2 by (intros ?; done).
  - by rewrite bool_decide_eq_true_2.
Qed.

Lemma held_create ctx input secret st :
  prisma.count (held_by (Team.id (team ctx)))
    (prisma.create (create_data ctx input secret) (webhook st)).2
  = S (held (Team.id (team ctx)) st).
Proof.
  rewrite count_create. unfold held_by at 1. simpl.
  by rewrite !bool_decide_eq_true_2.
Qed.

(** C1. With N = 1 for a team on the FREE plan and N = 3 for a team on
    any other plan, the limit [create] applies is never above N; a
    team that holds N or more subscriptions that are not DELETED gets
    the FORBIDDEN error "Webhook limit reached" and the store stays as
    it was; and when [create] returns, the team holds one
    subscription more than before, no more than its limit, hence no
    more than N.  [create] does return when the team is below its
    limit. *)
Theorem create_plan_limit ctx raw input st :
  z.parse create_input raw = z.OK input →
  let teamId := Team.id (team ctx) in
  let limit := getWebhookLimit (team ctx) in
  let N := if bool_decide (Team.plan (team ctx) = "FREE") then 1%nat else 3%nat in
  (limit ≤ N)%nat
  ∧ ((N ≤ held teamId st)%nat →
     create ctx raw st
     = (Throw (TRPCError FORBIDDEN (limit_message (held teamId st) limit)), st))
  ∧ (∀ row st', create ctx raw st = (Return row, st') →
     held teamId st' = S (held teamId st) ∧ (held teamId st' ≤ limit)%nat
     ∧ (held teamId st' ≤ N)%nat)
  ∧ ((held teamId st < limit)%nat → ∃ row st', create ctx raw st = (Return row, st')).
Proof.
  intros Hin teamId limit N.
  assert (limit ≤ N)%nat as Hle.
  { subst limit N. rewrite getWebhookLimit_cases.
    destruct (Team.isActive (team ctx)); simpl; repeat case_bool_decide; done || lia. }
  split_and!; [done | | |].
  - intros HN. apply (create_full ctx raw st input Hin). fold teamId limit. lia.
  - intros row st' Hrun.
    destruct (decide (limit ≤ held teamId st)%nat) as [Hfull | Hroom].
    + rewrite (create_full ctx raw st input Hin Hfull) in Hrun. done.
    + pose proof (create_room ctx raw st input Hin) as Heq.
      specialize (Heq ltac:(fold teamId limit; lia)).
      destruct (created_secret input st) as [secret e].
      pose proof (held_create ctx input secret st) as Hcount.
      destruct (prisma.create _ _) as [row' t]. simpl in Hcount.
      rewrite Heq in Hrun. injection Hrun as <- <-.
      unfold held at 1 3 4. simpl. fold teamId in Hcount. rewrite Hcount.
      fold (held teamId st). lia.
  - intros Hroom. pose proof (create_room ctx raw st input Hin Hroom) as Heq.
    destruct (created_secret input st) as [secret e].
    destruct (prisma.create _ _) as [row' t]. eauto.
Qed.

Lemma reachable_or_not ctx id st :
  unreachable ctx id st
  ∨ ∃ w, webhook st !! id = Some w
         ∧ Webhook.teamId w = Team.id (team ctx) ∧ Webhook.status w ≠ DELETED.
Proof.
  unfold unreachable. destruct (webhook st !! id) as [w |]; [| by left; left].
  destruct (decide (Webhook.teamId w = Team.id (team ctx)));
    destruct (decide (Webhook.status w = DELETED)); naive_solver.
Qed.

(** [setStatus], request by request. *)
Lemma setStatus_refused ctx raw st issues :
  z.parse setStatus_input raw = z.INVALID issues →
  setStatus ctx raw st = (Throw (ZodError issues), st).
Proof. intros H. unfold setStatus, procedure. by rewrite H. Qed.

Lemma setStatus_missing ctx raw st input :
  z.parse setStatus_input raw = z.OK input →
  unreachable ctx (SetStatusInput.id input) st →
  setStatus ctx raw st = (Throw not_found_webhook, st).
Proof.
  intros H Hun. unfold setStatus, procedure. rewrite H. run.
  unfold prisma.findFirst.
  destruct Hun as [-> | (w & -> & [Hteam | Hdel])]; [done | |].
  - by rewrite bool_decide_eq_false_2.
  - case_bool_decide; [| done]. by rewrite bool_decide_eq_true_2.
Qed.

Lemma setStatus_found ctx raw st input w :
  z.parse setStatus_input raw = z.OK input →
  webhook st !! SetStatusInput.id input = Some w →
  Webhook.teamId w = Team.id (team ctx) →
  Webhook.status w ≠ DELETED →
  setStatus ctx raw st
  = (Return (SetStatusInput.id input, setStatus_data input w w),
     with_webhook (<[SetStatusInput.id input := setStatus_data input w w]> (webhook st)) st).
Proof.
  intros H Hw Hteam Hlive. unfold setStatus, procedure. rewrite H. run.
  unfold prisma.findFirst. rewrite Hw, bool_decide_eq_true_2 by done.
  rewrite bool_decide_eq_false_2 by done.
  unfold db_webhook_update, prisma.update. by rewrite Hw.
Qed.

(** [update], request by request. *)
Lemma update_refused ctx raw st issues :
  z.parse update_input raw = z.INVALID issues →
  update ctx raw st = (Throw (ZodError issues), st).
Proof. intros H. unfold update, procedure. by rewrite H. Qed.

Lemma update_missing ctx raw st input :
  z.parse update_input raw = z.OK input →
  unreachable ctx (UpdateInput.id input) st →
  update ctx raw st = (Throw not_found_webhook, st).
Proof.
  intros H Hun. unfold update, procedure. rewrite H. run.
  unfold prisma.findFirst.
  destruct Hun as [-> | (w & -> & [Hteam | Hdel])]; [done | |].
  - by rewrite bool_decide_eq_false_2.
  - case_bool_decide; [| done]. by rewrite bool_decide_eq_true_2.
Qed.

Lemma update_found ctx raw st input w :
  z.parse update_input raw = z.OK input →
  webhook st !! UpdateInput.id input = Some w →
  Webhook.teamId w = Team.id (team ctx) →
  Webhook.status w ≠ DELETED →
  let '(secret, e) := update_secret input st in
  update ctx raw st
  = (Return (UpdateInput.id input, update_data input secret w w),
     with_webhook (<[UpdateInput.id input := update_data input secret w w]> (webhook st))
       (with_entropy e st)).
Proof.
  intros H Hw Hteam Hlive. unfold update, procedure, update_secret. rewrite H. run.
  unfold prisma.findFirst. rewrite Hw.
  rewrite (bool_decide_eq_true_2 (Webhook.teamId w = _)) by done.
  rewrite (bool_decide_eq_false_2 (Webhook.status w = _)) by done.
  case_bool_decide.
  - unfold generateSecret. destruct (generateSecret_draw (entropy st)) as [token e].
    unfold db_webhook_update, prisma.update. simpl. by rewrite Hw.
  - unfold db_webhook_update, prisma.update. rewrite Hw. by destruct st.
Qed.

(** C2. For a subscription of the requesting team that is not
    DELETED, an accepted [setStatus] to ACTIVE returns and stores the
    row with [status] ACTIVE and [consecutiveFailures] 0, every other
    column as it was; no other row, no call record and no entropy is
    touched.  On a subscription that is ACTIVE already, the row
    stored is the old row with [consecutiveFailures] 0. *)
Theorem setStatus_ACTIVE_resets ctx raw st id w :
  z.parse setStatus_input raw
    = z.OK {| SetStatusInput.id := id; SetStatusInput.status := ACTIVE |} →
  webhook st !! id = Some w →
  Webhook.teamId w = Team.id (team ctx) →
  Webhook.status w ≠ DELETED →
  let w' :=
    {| Webhook.status := ACTIVE; Webhook.consecutiveFailures := 0;
       Webhook.teamId := Webhook.teamId w; Webhook.url := Webhook.url w;
       Webhook.description := Webhook.description w; Webhook.secret := Webhook.secret w;
       Webhook.eventTypes := Webhook.eventTypes w;
       Webhook.createdByUserId := Webhook.createdByUserId w |} in
  setStatus ctx raw st
    = (Return (id, w'),
       {| webhook := <[id := w']> (webhook st);
          webhookCall := webhookCall st; entropy := entropy st |})
  ∧ (Webhook.status w = ACTIVE →
     w' = {| Webhook.status := Webhook.status w; Webhook.consecutiveFailures := 0;
             Webhook.teamId := Webhook.teamId w; Webhook.url := Webhook.url w;
             Webhook.description := Webhook.description w;
             Webhook.secret := Webhook.secret w;
             Webhook.eventTypes := Webhook.eventTypes w;
             Webhook.createdByUserId := Webhook.createdByUserId w |}).
Proof.
  intros Hin Hw Hteam Hlive w'. split.
  - by rewrite (setStatus_found ctx raw st _ w Hin Hw Hteam Hlive).
  - intros Hact. subst w'. by rewrite Hact.
Qed.

Lemma setStatus_input_DELETED raw :
  get "status" raw = JsString "DELETED" →
  ∃ issues, z.parse setStatus_input raw = z.INVALID issues ∧ deletion_issue ∈ issues.
Proof.
  intros Hstatus. destruct raw as [| | | | | | props]; try done.
  unfold z.parse, setStatus_input, z.object.
  assert (z.prop "status"
            (z.refine (z.nativeEnum WebhookStatus_members)
               (λ s, bool_decide (s ≠ DELETED)) "Deletion not supported here")
            [] (JsObject props) = z.INVALID [deletion_issue]) as ->.
  { unfold z.prop. by rewrite Hstatus. }
  destruct (both_INVALID_r (B := WebhookStatus)
              (z.prop "id" z.string [] (JsObject props)) [deletion_issue])
    as (issues & -> & Hsub).
  exists issues. split; [done |]. apply Hsub. set_solver.
Qed.

Lemma setStatus_input_OK raw input :
  z.parse setStatus_input raw = z.OK input → SetStatusInput.status input ≠ DELETED.
Proof.
  unfold z.parse, setStatus_input, z.object.
  destruct raw as [| | | | | | props]; try done.
  rewrite map_result_OK. intros [[id status] [H ->]]. simpl.
  apply both_OK in H as [_ H]. unfold z.prop, z.refine in H.
  apply check_OK in H as [_ H]. by apply bool_decide_eq_true in H.
Qed.

(** C4. Whatever else the request holds, [setStatus] with [status]
    DELETED is refused: the schema raises "Deletion not supported
    here" at [status], the caller gets BAD_REQUEST, and the store is
    as it was.  No input the resolver runs on has that status. *)
Theorem setStatus_DELETED_refused ctx raw st :
  get "status" raw = JsString "DELETED" →
  ∃ issues,
    setStatus ctx raw st = (Throw (ZodError issues), st)
    ∧ deletion_issue ∈ issues
    ∧ error_code (ZodError issues) = BAD_REQUEST
    ∧ ∀ input, z.parse setStatus_input raw ≠ z.OK input.
Proof.
  intros Hstatus.
  destruct (setStatus_input_DELETED raw Hstatus) as (issues & Hin & Hissue).
  exists issues. split_and!; [| done | done |].
  - by apply setStatus_refused.
  - intros input. by rewrite Hin.
Qed.

(** [getCall], request by request. *)
Lemma getCall_missing ctx raw st id :
  z.parse id_input raw = z.OK id →
  (webhookCall st !! id = None
   ∨ ∃ c, webhookCall st !! id = Some c ∧ WebhookCall.teamId c ≠ Team.id (team ctx)) →
  getCall ctx raw st = (Throw not_found_call, st).
Proof.
  intros H Hun. unfold getCall, procedure. rewrite H. run.
  unfold prisma.findFirst.
  destruct Hun as [-> | (c & -> & Hteam)]; [done |].
  by rewrite bool_decide_eq_false_2.
Qed.

Lemma getCall_found ctx raw st id c :
  z.parse id_input raw = z.OK id →
  webhookCall st !! id = Some c →
  WebhookCall.teamId c = Team.id (team ctx) →
  getCall ctx raw st = (Return (id, c), st).
Proof.
  intros H Hc Hteam. unfold getCall, procedure. rewrite H. run.
  unfold prisma.findFirst. by rewrite Hc, bool_decide_eq_true_2.
Qed.

(** C5. On an accepted request, [update] and [setStatus] throw
    NOT_FOUND "Webhook not found" when no subscription has the id,
    when it is another team's, and when it is DELETED; [getCall]
    throws NOT_FOUND "Webhook call not found" when no call record has
    the id and when it is another team's.  The state after the throw
    is the state before. *)
Theorem not_found_leaves_store ctx st :
  (∀ raw input,
     z.parse update_input raw = z.OK input →
     unreachable ctx (UpdateInput.id input) st →
     update ctx raw st = (Throw (TRPCError NOT_FOUND "Webhook not found"), st))
  ∧ (∀ raw input,
     z.parse setStatus_input raw = z.OK input →
     unreachable ctx (SetStatusInput.id input) st →
     setStatus ctx raw st = (Throw (TRPCError NOT_FOUND "Webhook not found"), st))
  ∧ (∀ raw id,
     z.parse id_input raw = z.OK id →
     (webhookCall st !! id = None
      ∨ ∃ c, webhookCall st !! id = Some c
             ∧ WebhookCall.teamId c ≠ Team.id (team ctx)) →
     getCall ctx raw st = (Throw (TRPCError NOT_FOUND "Webhook call not found"), st)).
Proof.
  split_and!.
  - intros raw input. apply update_missing.
  - intros raw input. apply setStatus_missing.
  - intros raw id. apply getCall_missing.
Qed.

(** What [create_input] and [update_input] accept, property by
    property. *)
Lemma create_input_OK raw input :
  z.parse create_input raw = z.OK input →
  z.url isUrl z.string [z.Key "url"] (get "url" raw) = z.OK (CreateInput.url input)
  ∧ z.optional z.string [z.Key "description"] (get "description" raw)
    = z.OK (CreateInput.description input)
  ∧ z.array_min (EVENT_TYPES_ENUM WEBHOOK_EVENT_TYPES) 1 [z.Key "eventTypes"]
      (get "eventTypes" raw) = z.OK (CreateInput.eventTypes input)
  ∧ z.optional (z.string_min z.string 16) [z.Key "secret"] (get "secret" raw)
    = z.OK (CreateInput.secret input).
Proof.
  unfold z.parse, create_input, z.object.
  destruct raw as [| | | | | | props]; try done.
  rewrite map_result_OK. intros [(u & d & e & sc) [H ->]].
  apply both_OK in H as [Hu H]. apply both_OK in H as [Hd H].
  apply both_OK in H as [He Hs]. done.
Qed.

Lemma update_input_OK raw input :
  z.parse update_input raw = z.OK input →
  get "id" raw = JsString (UpdateInput.id input)
  ∧ z.optional (z.array_min (EVENT_TYPES_ENUM WEBHOOK_EVENT_TYPES) 1) [z.Key "eventTypes"]
      (get "eventTypes" raw) = z.OK (UpdateInput.eventTypes input)
  ∧ z.optional z.boolean [z.Key "rotateSecret"] (get "rotateSecret" raw)
    = z.OK (UpdateInput.rotateSecret input)
  ∧ z.optional (z.string_min z.string 16) [z.Key "secret"] (get "secret" raw)
    = z.OK (UpdateInput.secret input).
Proof.
  unfold z.parse, update_input, z.object.
  destruct raw as [| | | | | | props]; try done.
  rewrite map_result_OK. intros [(i & u & d & e & r & sc) [H ->]].
  apply both_OK in H as [Hi H]. apply both_OK in H as [Hu H].
  apply both_OK in H as [Hd H]. apply both_OK in H as [He H].
  apply both_OK in H as [Hr Hs]. apply string_OK in Hi. done.
Qed.

(** A secret the schema lets through has sixteen characters. *)
Lemma secret_OK v o :
  z.optional (z.string_min z.string 16) [z.Key "secret"] v = z.OK o →
  match o with
  | Some s => v = JsString s ∧ (16 ≤ String.length s)%nat
  | None => v = undefined
  end.
Proof.
  rewrite optional_OK. intros [[-> ->] | [_ (s & H & ->)]]; [done |].
  by apply string_min_OK in H.
Qed.

(** The event types the schema lets through are the strings sent,
    one at least, each of the enumeration. *)
Lemma eventTypes_OK v xs :
  z.array_min (EVENT_TYPES_ENUM WEBHOOK_EVENT_TYPES) 1 [z.Key "eventTypes"] v = z.OK xs →
  v = JsArray (JsString <$> xs) ∧ xs ≠ [] ∧ Forall (.∈ WEBHOOK_EVENT_TYPES) xs.
Proof.
  unfold EVENT_TYPES_ENUM. rewrite array_min_enum_OK. intros (-> & Hn & Hall).
  split_and!; [done | | done]. intros ->. simpl in Hn. lia.
Qed.

Lemma after_effect ctx m st : effect ctx st m (webhook (after ctx m st)).
Proof.
  destruct m as [raw | raw | raw]; simpl.
  - destruct (z.parse create_input raw) as [input | issues] eqn:Hin.
    2: { rewrite (create_refused ctx raw st issues Hin). constructor. }
    destruct (decide (getWebhookLimit (team ctx) ≤ held (Team.id (team ctx)) st)%nat)
      as [Hfull | Hroom].
    { rewrite (create_full ctx raw st input Hin Hfull). constructor. }
    pose proof (create_room ctx raw st input Hin ltac:(lia)) as Heq.
    pose proof (create_fresh (create_data ctx input (created_secret input st).1)
                  (webhook st)) as Hfresh.
    unfold prisma.create in *. cbn [fst snd] in Hfresh.
    pose proof (effect_create (generateSecret_draw := generateSecret_draw)
                  (consecutiveFailures_default := consecutiveFailures_default)
                  ctx st raw input _ Hin Hfresh) as Heff.
    destruct (created_secret input st) as [secret e]. by rewrite Heq.
  - destruct (z.parse update_input raw) as [input | issues] eqn:Hin.
    2: { rewrite (update_refused ctx raw st issues Hin). constructor. }
    destruct (reachable_or_not ctx (UpdateInput.id input) st)
      as [Hun | (w & Hw & Hteam & Hlive)].
    { rewrite (update_missing ctx raw st input Hin Hun). constructor. }
    pose proof (update_found ctx raw st input w Hin Hw Hteam Hlive) as Heq.
    pose proof (effect_update (generateSecret_draw := generateSecret_draw)
                  (consecutiveFailures_default := consecutiveFailures_default)
                  ctx st raw input w Hin Hw Hteam Hlive) as Heff.
    destruct (update_secret input st) as [secret e]. by rewrite Heq.
  - destruct (z.parse setStatus_input raw) as [input | issues] eqn:Hin.
    2: { rewrite (setStatus_refused ctx raw st issues Hin). constructor. }
    destruct (reachable_or_not ctx (SetStatusInput.id input) st)
      as [Hun | (w & Hw & Hteam & Hlive)].
    { rewrite (setStatus_missing ctx raw st input Hin Hun). constructor. }
    rewrite (setStatus_found ctx raw st input w Hin Hw Hteam Hlive). by constructor.
Qed.

(** C3. Whatever request reaches [create], [update] or [setStatus],
    a subscription in the store is still there afterwards with the
    [consecutiveFailures] it had, unless the request is an accepted
    [setStatus] of that very subscription to ACTIVE, which leaves the
    counter at 0. *)
Theorem consecutiveFailures_steady ctx m st id w :
  webhook st !! id = Some w →
  ∃ w', webhook (after ctx m st) !! id = Some w'
    ∧ (Webhook.consecutiveFailures w' = Webhook.consecutiveFailures w
       ∨ (Webhook.consecutiveFailures w' = 0
          ∧ ∃ raw, m = SetStatus raw
              ∧ z.parse setStatus_input raw
                = z.OK {| SetStatusInput.id := id; SetStatusInput.status := ACTIVE |})).
Proof.
  intros Hw. generalize (after_effect ctx m st).
  generalize (webhook (after ctx m st)). intros t Heff.
  destruct Heff as [m | raw input id' Hin Hfresh | raw input w0 Hin Hw0 Hteam Hlive
                   | raw input w0 Hin Hw0 Hteam Hlive].
  - eauto.
  - exists w. rewrite lookup_insert_ne by congruence. eauto.
  - destruct (decide (UpdateInput.id input = id)) as [<- | Hne].
    + rewrite lookup_insert_eq. eexists; split; [done |]. left. simpl. congruence.
    + exists w. rewrite lookup_insert_ne by done. eauto.
  - destruct (decide (SetStatusInput.id input = id)) as [<- | Hne].
    + rewrite lookup_insert_eq. eexists; split; [done |]. simpl.
      case_bool_decide as Hact.
      * right. split; [done |]. exists raw. split; [done |].
        rewrite Hin. f_equal. destruct input; simpl in *. by subst.
      * left. congruence.
    + exists w. rewrite lookup_insert_ne by done. eauto.
Qed.

(** What [update] has done when it returns. *)
Lemma update_returns ctx raw st row st' :
  update ctx raw st = (Return row, st') →
  ∃ input w,
    z.parse update_input raw = z.OK input
    ∧ webhook st !! UpdateInput.id input = Some w
    ∧ Webhook.teamId w = Team.id (team ctx)
    ∧ Webhook.status w ≠ DELETED
    ∧ row = (UpdateInput.id input, update_data input (update_secret input st).1 w w)
    ∧ st' = with_webhook (<[row.1 := row.2]> (webhook st))
              (with_entropy (update_secret input st).2 st).
Proof.
  intros Hrun.
  destruct (z.parse update_input raw) as [input | issues] eqn:Hin.
  2: { by rewrite (update_refused ctx raw st issues Hin) in Hrun. }
  destruct (reachable_or_not ctx (UpdateInput.id input) st)
    as [Hun | (w & Hw & Hteam & Hlive)].
  { by rewrite (update_missing ctx raw st input Hin Hun) in Hrun. }
  pose proof (update_found ctx raw st input w Hin Hw Hteam Hlive) as Heq.
  exists input, w. destruct (update_secret input st) as [secret e].
  rewrite Heq in Hrun. injection Hrun as <- <-. done.
Qed.

(** C9. When an accepted [update] returns, the row it returns is the
    row stored.  With [rotateSecret] true its secret is the token
    [generateSecret] draws in this call, whether or not the request
    has a [secret] of its own; with [rotateSecret] absent or false,
    the secret is the one the request supplies, and the one the row
    had if it supplies none. *)
Theorem update_rotateSecret ctx raw input st row st' :
  z.parse update_input raw = z.OK input →
  update ctx raw st = (Return row, st') →
  ∃ w, webhook st !! row.1 = Some w
    ∧ webhook st' !! row.1 = Some row.2
    ∧ (UpdateInput.rotateSecret input = Some true →
       Webhook.secret row.2 = (generateSecret_draw (entropy st)).1
       ∧ entropy st' = (generateSecret_draw (entropy st)).2)
    ∧ (UpdateInput.rotateSecret input ≠ Some true →
       entropy st' = entropy st
       ∧ match UpdateInput.secret input with
         | Some s => Webhook.secret row.2 = s
         | None => Webhook.secret row.2 = Webhook.secret w
         end).
Proof.
  intros Hin Hrun.
  destruct (update_returns ctx raw st row st' Hrun)
    as (input' & w & Hin' & Hw & _ & _ & -> & ->).
  rewrite Hin in Hin'. injection Hin' as <-.
  exists w. simpl. rewrite lookup_insert_eq. split_and!; [done .. | |].
  - intros Hrot. unfold update_secret. rewrite bool_decide_eq_true_2 by done.
    by destruct (generateSecret_draw (entropy st)).
  - intros Hrot. unfold update_secret. rewrite bool_decide_eq_false_2 by done.
    simpl. by destruct (UpdateInput.secret input).
Qed.

(** C10. When [update] returns, the row it returns replaces the row
    of that id, which the team of the request owns, and has its
    [status], [consecutiveFailures], [teamId] and [createdByUserId];
    every column that differs is one of [url], [description],
    [eventTypes] and [secret].  No other row of [db.webhook] and no
    call record changes. *)
Theorem update_frame ctx raw st row st' :
  update ctx raw st = (Return row, st') →
  ∃ w, webhook st !! row.1 = Some w
    ∧ webhook st' = <[row.1 := row.2]> (webhook st)
    ∧ webhookCall st' = webhookCall st
    ∧ Webhook.status row.2 = Webhook.status w
    ∧ Webhook.consecutiveFailures row.2 = Webhook.consecutiveFailures w
    ∧ Webhook.teamId row.2 = Webhook.teamId w
    ∧ Webhook.createdByUserId row.2 = Webhook.createdByUserId w
    ∧ w = {| Webhook.url := Webhook.url w; Webhook.description := Webhook.description w;
             Webhook.eventTypes := Webhook.eventTypes w;
             Webhook.secret := Webhook.secret w;
             Webhook.status := Webhook.status row.2;
             Webhook.consecutiveFailures := Webhook.consecutiveFailures row.2;
             Webhook.teamId := Webhook.teamId row.2;
             Webhook.createdByUserId := Webhook.createdByUserId row.2 |}.
Proof.
  intros Hrun.
  destruct (update_returns ctx raw st row st' Hrun)
    as (input & w & Hin & Hw & _ & _ & -> & ->).
  exists w. simpl. split_and!; try done. by destruct w.
Qed.

(** What [create] has done when it returns. *)
Lemma create_returns ctx raw st row st' :
  create ctx raw st = (Return row, st') →
  ∃ input,
    z.parse create_input raw = z.OK input
    ∧ webhook st !! row.1 = None
    ∧ row.2 = create_data ctx input (created_secret input st).1
    ∧ st' = with_webhook (<[row.1 := row.2]> (webhook st))
              (with_entropy (created_secret input st).2 st).
Proof.
  intros Hrun.
  destruct (z.parse create_input raw) as [input | issues] eqn:Hin.
  2: { by rewrite (create_refused ctx raw st issues Hin) in Hrun. }
  destruct (decide (getWebhookLimit (team ctx) ≤ held (Team.id (team ctx)) st)%nat)
    as [Hfull | Hroom].
  { by rewrite (create_full ctx raw st input Hin Hfull) in Hrun. }
  pose proof (create_room ctx raw st input Hin ltac:(lia)) as Heq.
  pose proof (create_fresh (create_data ctx input (created_secret input st).1)
                (webhook st)) as Hfresh.
  exists input. destruct (created_secret input st) as [secret e].
  unfold prisma.create in *. rewrite Heq in Hrun. injection Hrun as <- <-. done.
Qed.

(** A property of rows that every write of the three procedures
    establishes or keeps holds of the whole table after a request if
    it held before. *)
Lemma after_invariant (P : Webhook.t → Prop) ctx m st :
  (∀ raw input,
     z.parse create_input raw = z.OK input →
     P (create_data ctx input (created_secret input st).1)) →
  (∀ raw input w,
     z.parse update_input raw = z.OK input →
     P w → P (update_data input (update_secret input st).1 w w)) →
  (∀ input w, P w → P (setStatus_data input w w)) →
  map_Forall (λ _, P) (webhook st) →
  map_Forall (λ _, P) (webhook (after ctx m st)).
Proof.
  intros Hcreate Hupdate Hset Hst. generalize (after_effect ctx m st).
  generalize (webhook (after ctx m st)). intros t Heff.
  destruct Heff as [m | raw input id' Hin Hfresh | raw input w0 Hin Hw0 Hteam Hlive
                   | raw input w0 Hin Hw0 Hteam Hlive];
    [done | apply map_Forall_insert_2; [| done] ..].
  - by eapply Hcreate.
  - eapply Hupdate; [done |]. by eapply Hst.
  - eapply Hset. by eapply Hst.
Qed.

Lemma replay_invariant (I : World Entropy → Prop) history st :
  (∀ ctx m st, I st → I (after ctx m st)) → I st → I (replay history st).
Proof.
  intros Hstep. revert st. induction history as [| [ctx m] history IH]; intros st Hst.
  - done.
  - simpl. apply IH. by apply Hstep.
Qed.

(** C7. Granted that a token of [generateSecret] has sixteen
    characters or more: a [create] whose request has no [secret]
    stores the token [generateSecret] draws in that call; a request
    to [create] or [update] with a string for [secret] is accepted
    only if the string has sixteen characters or more, and is then
    read as that secret; so a table whose secrets all have sixteen
    characters has them still after any request, and after any
    history of requests. *)
Theorem stored_secret_minimum :
  (∀ e, (16 ≤ String.length (generateSecret_draw e).1)%nat) →
  (∀ ctx raw st row st',
     get "secret" raw = undefined →
     create ctx raw st = (Return row, st') →
     webhook st' !! row.1 = Some row.2
     ∧ Webhook.secret row.2 = (generateSecret_draw (entropy st)).1
     ∧ entropy st' = (generateSecret_draw (entropy st)).2)
  ∧ (∀ raw s,
     get "secret" raw = JsString s →
     (∀ input, z.parse create_input raw = z.OK input →
        CreateInput.secret input = Some s ∧ (16 ≤ String.length s)%nat)
     ∧ (∀ input, z.parse update_input raw = z.OK input →
        UpdateInput.secret input = Some s ∧ (16 ≤ String.length s)%nat))
  ∧ (∀ ctx m st, secrets_long (webhook st) → secrets_long (webhook (after ctx m st)))
  ∧ (∀ history st,
     secrets_long (webhook st) → secrets_long (webhook (replay history st))).
Proof.
  intros Hgen.
  assert (∀ ctx m st, secrets_long (webhook st) → secrets_long (webhook (after ctx m st)))
    as Hstep.
  { intros ctx m st. apply after_invariant.
    - intros raw input Hin. simpl. unfold created_secret.
      apply create_input_OK in Hin as (_ & _ & _ & Hs). apply secret_OK in Hs.
      destruct (CreateInput.secret input) as [s |]; simpl; [by destruct Hs | apply Hgen].
    - intros raw input w Hin Hw. simpl. unfold update_secret.
      apply update_input_OK in Hin as (_ & _ & _ & Hs). apply secret_OK in Hs.
      case_bool_decide.
      + specialize (Hgen (entropy st)).
        by destruct (generateSecret_draw (entropy st)).
      + simpl. destruct (UpdateInput.secret input) as [s |]; simpl; [by destruct Hs | done].
    - by intros input w Hw. }
  split_and!.
  - intros ctx raw st row st' Hnone Hrun.
    destruct (create_returns ctx raw st row st' Hrun) as (input & Hin & _ & Hrow & ->).
    apply create_input_OK in Hin as (_ & _ & _ & Hs). apply secret_OK in Hs.
    simpl. rewrite lookup_insert_eq. split; [done |].
    rewrite Hrow. unfold created_secret. simpl.
    destruct (CreateInput.secret input) as [s |]; [destruct Hs; congruence | done].
  - intros raw s Hraw. split; intros input Hin.
    + apply create_input_OK in Hin as (_ & _ & _ & Hs). apply secret_OK in Hs.
      destruct (CreateInput.secret input) as [s' |]; [| congruence].
      destruct Hs as [Hs ?]. rewrite Hraw in Hs. by injection Hs as <-.
    + apply update_input_OK in Hin as (_ & _ & _ & Hs). apply secret_OK in Hs.
      destruct (UpdateInput.secret input) as [s' |]; [| congruence].
      destruct Hs as [Hs ?]. rewrite Hraw in Hs. by injection Hs as <-.
  - done.
  - intros history st.
    apply (replay_invariant (λ st, secrets_long (webhook st))). done.
Qed.

(** C8. A request whose [eventTypes] is an array that is empty or
    has an element that is no name of [WEBHOOK_EVENT_TYPES] is
    refused by [create] and by [update] with the schema's issues, and
    the store stays as it was; so a table whose rows all have a
    non-empty list of names of the enumeration has such rows only
    after any request, and after any history of requests. *)
Theorem eventTypes_validated :
  (∀ ctx raw st l,
     get "eventTypes" raw = JsArray l →
     l = [] ∨ (∃ v, v ∈ l ∧ ∀ s, v = JsString s → s ∉ WEBHOOK_EVENT_TYPES) →
     (∃ issues, create ctx raw st = (Throw (ZodError issues), st))
     ∧ (∃ issues, update ctx raw st = (Throw (ZodError issues), st)))
  ∧ (∀ ctx m st,
     eventTypes_closed (webhook st) → eventTypes_closed (webhook (after ctx m st)))
  ∧ (∀ history st,
     eventTypes_closed (webhook st) → eventTypes_closed (webhook (replay history st))).
Proof.
  assert (∀ l xs, l = [] ∨ (∃ v, v ∈ l ∧ ∀ s, v = JsString s → s ∉ WEBHOOK_EVENT_TYPES) →
            JsArray l = JsArray (JsString <$> xs) → xs ≠ [] →
            Forall (.∈ WEBHOOK_EVENT_TYPES) xs → False) as Hbad.
  { intros l xs Hl [= ->] Hne Hall. destruct Hl as [Hl | (v & Hv & Hout)].
    - by destruct xs.
    - apply list_elem_of_fmap in Hv as (s & -> & Hs).
      rewrite Forall_forall in Hall. by eapply Hout, Hall. }
  assert (∀ ctx m st,
            eventTypes_closed (webhook st) → eventTypes_closed (webhook (after ctx m st)))
    as Hstep.
  { intros ctx m st. apply after_invariant.
    - intros raw input Hin. simpl.
      apply create_input_OK in Hin as (_ & _ & He & _).
      by apply eventTypes_OK in He as (_ & ? & ?).
    - intros raw input w Hin Hw. simpl.
      apply update_input_OK in Hin as (_ & He & _ & _).
      apply optional_OK in He as [[_ ->] | [_ (xs & He & ->)]]; [done |]. simpl.
      by apply eventTypes_OK in He as (_ & ? & ?).
    - by intros input w Hw. }
  split_and!.
  - intros ctx raw st l Hraw Hl. split.
    + destruct (z.parse create_input raw) as [input | issues] eqn:Hin.
      * apply create_input_OK in Hin as (_ & _ & He & _).
        apply eventTypes_OK in He as (He & ? & ?). rewrite Hraw in He.
        by destruct (Hbad l _ Hl He).
      * exists issues. by apply create_refused.
    + destruct (z.parse update_input raw) as [input | issues] eqn:Hin.
      * apply update_input_OK in Hin as (_ & He & _ & _).
        apply optional_OK in He as [[He _] | [_ (xs & He & _)]]; [congruence |].
        apply eventTypes_OK in He as (He & ? & ?). rewrite Hraw in He.
        by destruct (Hbad l _ Hl He).
      * exists issues. by apply update_refused.
  - done.
  - intros history st.
    apply (replay_invariant (λ st, eventTypes_closed (webhook st))). done.
Qed.

(** ** Call records, page by page *)

Lemma listCalls_input_OK raw input :
  z.parse listCalls_input raw = z.OK input →
  1 ≤ ListCallsInput.limit input ≤ 50
  ∧ match get "limit" raw with
    | undefined => ListCallsInput.limit input = 20
    | v => v = JsNumber (ListCallsInput.limit input)
    end.
Proof.
  unfold z.parse, listCalls_input, z.object.
  destruct raw as [| | | | | | props]; try done.
  rewrite map_result_OK. intros [(w & s & l & c) [H ->]].
  apply both_OK in H as [_ H]. apply both_OK in H as [_ H].
  apply both_OK in H as [Hl _]. simpl. unfold z.prop in Hl.
  assert (∀ p v n, z.number_max (z.number_min z.number 1) 50 p v = z.OK n →
            v = JsNumber n ∧ 1 ≤ n ≤ 50) as Hnum.
  { intros p v n Hn. unfold z.number_max, z.number_min in Hn.
    apply check_OK in Hn as [Hn Hmax]. apply check_OK in Hn as [Hn Hmin].
    apply bool_decide_eq_true in Hmax, Hmin.
    destruct v; try done. cbv in Hn. injection Hn as ->. split; [done | lia]. }
  unfold z.default in Hl.
  destruct (get "limit" (JsObject props)) eqn:Hget;
    apply Hnum in Hl as [Hv ?]; try done.
  all: injection Hv as Hv; subst l; split; [lia |].
  all: simpl in Hget; by rewrite Hget.
Qed.

End Facts.

(** ** Listings *)

Lemma filter_keys_NoDup {R} (P : Row R → Prop) `{!∀ x, Decision (P x)} (l : list (Row R)) :
  NoDup l.*1 → NoDup (filter P l).*1.
Proof.
  induction l as [| r l IH]; [done |]. rewrite fmap_cons, NoDup_cons. intros [Hr Hl].
  rewrite filter_cons. case_decide; [| by apply IH].
  rewrite fmap_cons, NoDup_cons. split; [| by apply IH].
  rewrite list_elem_of_fmap. intros (r' & Heq & Hin). apply Hr.
  apply list_elem_of_filter in Hin as [_ Hin]. rewrite Heq. by apply list_elem_of_fmap_2.
Qed.

(** Without a cursor the listing is the matching rows of the table,
    each once. *)
Lemma ordered_all {R} (clause : R → bool) (orderBy : relation (Row R))
    `{!RelDecision orderBy} (t : gmap string R) :
  prisma.ordered clause orderBy None t ≡ₚ map_to_list (filter (prisma.matching clause) t).
Proof.
  unfold prisma.ordered. rewrite merge_sort_Permutation.
  apply NoDup_Permutation.
  - apply NoDup_filter, NoDup_map_to_list.
  - apply NoDup_map_to_list.
  - intros [id r]. rewrite list_elem_of_filter, !elem_of_map_to_list.
    rewrite map_lookup_filter_Some. naive_solver.
Qed.

(** The rows of a listing have distinct ids. *)
Lemma ordered_keys_NoDup {R} (clause : R → bool) (orderBy : relation (Row R))
    `{!RelDecision orderBy} cursor (t : gmap string R) :
  NoDup (prisma.ordered clause orderBy cursor t).*1.
Proof.
  unfold prisma.ordered.
  assert (NoDup (merge_sort orderBy
                   (filter (prisma.matching clause) (map_to_list t))).*1) as Hsorted.
  { rewrite merge_sort_Permutation. apply filter_keys_NoDup, NoDup_fst_map_to_list. }
  destruct cursor as [id |]; [| done].
  destruct (from_cursor_suffix id
              (merge_sort orderBy (filter (prisma.matching clause) (map_to_list t))))
    as [k Hk].
  rewrite Hk, fmap_app in Hsorted. by apply NoDup_app in Hsorted as (_ & _ & ?).
Qed.

(** The cursor that names the row at a place of a listing cuts the
    listing there. *)
Lemma from_cursor_drop {R} (rows : list (Row R)) n r :
  NoDup rows.*1 → rows !! n = Some r → prisma.from_cursor r.1 rows = drop n rows.
Proof.
  revert n. induction rows as [| x rows IH]; intros n Hnodup Hn; [done |].
  rewrite fmap_cons, NoDup_cons in Hnodup. destruct Hnodup as [Hx Hnodup].
  destruct n as [| n]; simpl in *.
  - injection Hn as ->. by rewrite decide_True.
  - rewrite decide_False; [by apply IH |].
    intros Heq. apply Hx. rewrite Heq.
    apply list_elem_of_fmap_2. by eapply list_elem_of_lookup_2.
Qed.

(** The page that starts at the row at place [n] of a listing is the
    listing from that place on. *)
Lemma ordered_from {R} (clause : R → bool) (orderBy : relation (Row R))
    `{!RelDecision orderBy} cursor (t : gmap string R) n r :
  prisma.ordered clause orderBy cursor t !! n = Some r →
  prisma.ordered clause orderBy (Some r.1) t
  = drop n (prisma.ordered clause orderBy cursor t).
Proof.
  intros Hn.
  pose proof (ordered_keys_NoDup clause orderBy None t) as Hnodup.
  unfold prisma.ordered in *.
  set (sorted := merge_sort orderBy (filter (prisma.matching clause) (map_to_list t))) in *.
  destruct cursor as [id |]; [| by apply from_cursor_drop].
  destruct (from_cursor_suffix id sorted) as [k Hk].
  rewrite (from_cursor_drop sorted (length k + n) r Hnodup).
  - rewrite Hk at 1. by rewrite drop_app_add.
  - rewrite Hk, lookup_app_r by lia. rewrite <- Hn. f_equal. lia.
Qed.

(** A subscription can be reached by the team of a request, or it
    cannot. *)
Lemma reachable_cases {Entropy : Type} (ctx : Ctx) (id : string) (st : World Entropy) :
  unreachable ctx id st
  ∨ ∃ w, webhook st !! id = Some w
         ∧ Webhook.teamId w = Team.id (team ctx) ∧ Webhook.status w ≠ DELETED.
Proof.
  unfold unreachable. destruct (webhook st !! id) as [w |]; [| by left; left].
  destruct (decide (Webhook.teamId w = Team.id (team ctx))) as [Hteam | Hteam];
    [| left; right; exists w; auto].
  destruct (decide (Webhook.status w = DELETED)) as [Hdel | Hlive];
    [left; right; exists w; auto | right; exists w; auto].
Qed.

(** ** The schemas, read property by property *)


Lemma optional_boolean_spec p v o :
  z.optional z.boolean p v = z.OK o ↔
    match v with
    | undefined => o = None
    | JsBoolean b => o = Some b
    | _ => False
    end.
Proof. destruct v; cbv [z.optional z.boolean z.addIssue]; naive_solver. Qed.

Lemma optional_nullable_string_spec p v o :
  z.optional (z.nullable z.string) p v = z.OK o ↔
    match v with
    | undefined => o = None
    | null => o = Some None
    | JsString d => o = Some (Some d)
    | _ => False
    end.
Proof. destruct v; cbv [z.optional z.nullable z.string z.addIssue]; naive_solver. Qed.

Lemma optional_url_spec isUrl p v o :
  z.optional (z.url isUrl z.string) p v = z.OK o ↔
    match v with
    | undefined => o = None
    | JsString u => isUrl u = true ∧ o = Some u
    | _ => False
    end.
Proof.
  rewrite optional_OK. unfold z.url.
  destruct v; try (split; [intros [[[=] _] | [_ (a & H & _)]] | done];
                   apply check_OK in H as [H _]; by apply string_OK in H).
  - naive_solver.
  - split.
    + intros [[[=] _] | [_ (a & H & ->)]]. apply check_OK in H as [H ?].
      apply string_OK in H as [= ->]. done.
    + intros [Hu ->]. right. split; [done |]. exists s. split; [| done].
      apply check_OK. by rewrite string_OK.
Qed.

Lemma optional_secret_spec p v o :
  z.optional (z.string_min z.string 16) p v = z.OK o ↔
    match v with
    | undefined => o = None
    | JsString s => (16 ≤ String.length s)%nat ∧ o = Some s
    | _ => False
    end.
Proof.
  rewrite optional_OK.
  destruct v; try (split; [intros [[[=] _] | [_ (a & H & _)]] | done];
                   by apply string_min_OK in H as [? _]).
  - naive_solver.
  - split.
    + intros [[[=] _] | [_ (a & H & ->)]]. by apply string_min_OK in H as [[= ->] ?].
    + intros [Hs ->]. right. split; [done |]. exists s. split; [| done].
      by apply string_min_OK.
Qed.

Lemma optional_eventTypes_spec values p v o :
  z.optional (z.array_min (z.enum values) 1) p v = z.OK o ↔
    match v with
    | undefined => o = None
    | JsArray elements =>
        ∃ names, elements = JsString <$> names ∧ names ≠ []
                 ∧ Forall (.∈ values) names ∧ o = Some names
    | _ => False
    end.
Proof.
  rewrite optional_OK.
  destruct v; try (split; [intros [[[=] _] | [_ (a & H & _)]] | done];
                   by apply array_min_enum_OK in H as [? _]).
  - naive_solver.
  - split.
    + intros [[[=] _] | [_ (names & H & ->)]].
      apply array_min_enum_OK in H as ([= ->] & Hn & Hall).
      exists names. split_and!; [done | | done | done].
      intros ->. simpl in Hn. lia.
    + intros (names & -> & Hn & Hall & ->). right. split; [done |].
      exists names. split; [| done]. apply array_min_enum_OK.
      split_and!; [done | | done]. destruct names; [done | simpl; lia].
Qed.






(** ** Further facts about the router *)

Section MoreFacts.
Context (isUrl : string → bool) (WEBHOOK_EVENT_TYPES : list string).
Context {Entropy : Type} (generateSecret_draw : Entropy → string * Entropy).
Context (consecutiveFailures_default : Z).

Local Abbreviation create_input := (create_input isUrl WEBHOOK_EVENT_TYPES).
Local Abbreviation update_input := (update_input isUrl WEBHOOK_EVENT_TYPES).
Local Abbreviation create_data := (create_data consecutiveFailures_default).
Local Abbreviation created_secret := (created_secret generateSecret_draw).
Local Abbreviation update_secret := (update_secret generateSecret_draw).
Local Abbreviation create :=
  (create isUrl WEBHOOK_EVENT_TYPES generateSecret_draw consecutiveFailures_default).
Local Abbreviation update := (update isUrl WEBHOOK_EVENT_TYPES generateSecret_draw).
Local Abbreviation after :=
  (after isUrl WEBHOOK_EVENT_TYPES generateSecret_draw consecutiveFailures_default).
Local Abbreviation replay :=
  (replay isUrl WEBHOOK_EVENT_TYPES generateSecret_draw consecutiveFailures_default).
Local Abbreviation run :=
  (run isUrl WEBHOOK_EVENT_TYPES generateSecret_draw consecutiveFailures_default).
Local Abbreviation effect :=
  (effect isUrl WEBHOOK_EVENT_TYPES generateSecret_draw consecutiveFailures_default).

Local Abbreviation create_refused :=
  (create_refused isUrl WEBHOOK_EVENT_TYPES generateSecret_draw consecutiveFailures_default).
Local Abbreviation create_full :=
  (create_full isUrl WEBHOOK_EVENT_TYPES generateSecret_draw consecutiveFailures_default).
Local Abbreviation create_room :=
  (create_room isUrl WEBHOOK_EVENT_TYPES generateSecret_draw consecutiveFailures_default).
Local Abbreviation create_returns :=
  (create_returns isUrl WEBHOOK_EVENT_TYPES generateSecret_draw consecutiveFailures_default).
Local Abbreviation update_refused :=
  (update_refused isUrl WEBHOOK_EVENT_TYPES generateSecret_draw).
Local Abbreviation update_missing :=
  (update_missing isUrl WEBHOOK_EVENT_TYPES generateSecret_draw).
Local Abbreviation update_found :=
  (update_found isUrl WEBHOOK_EVENT_TYPES generateSecret_draw).
Local Abbreviation update_returns :=
  (update_returns isUrl WEBHOOK_EVENT_TYPES generateSecret_draw).
Local Abbreviation after_effect :=
  (after_effect isUrl WEBHOOK_EVENT_TYPES generateSecret_draw consecutiveFailures_default).

Implicit Types (ctx : Ctx) (raw : JsValue) (st : World Entropy).

Lemma run_after ctx m st : (run ctx m st).2 = after ctx m st.
Proof. by destruct m. Qed.

(** What [setStatus] has done when it returns. *)
Lemma setStatus_returns ctx raw st row st' :
  setStatus ctx raw st = (Return row, st') →
  ∃ input w,
    z.parse setStatus_input raw = z.OK input
    ∧ webhook st !! SetStatusInput.id input = Some w
    ∧ Webhook.teamId w = Team.id (team ctx)
    ∧ Webhook.status w ≠ DELETED
    ∧ row = (SetStatusInput.id input, setStatus_data input w w)
    ∧ st' = with_webhook (<[row.1 := row.2]> (webhook st)) st.
Proof using Type.
  intros Hrun.
  destruct (z.parse setStatus_input raw) as [input | issues] eqn:Hin.
  2: { by rewrite (setStatus_refused ctx raw st issues Hin) in Hrun. }
  destruct (reachable_cases ctx (SetStatusInput.id input) st)
    as [Hun | (w & Hw & Hteam & Hlive)].
  { by rewrite (setStatus_missing ctx raw st input Hin Hun) in Hrun. }
  rewrite (setStatus_found ctx raw st input w Hin Hw Hteam Hlive) in Hrun.
  injection Hrun as <- <-. by exists input, w.
Qed.

(** A request that throws has changed nothing, and throws one of three
    things: the schema's issues; FORBIDDEN, from [create]; NOT_FOUND
    "Webhook not found", from [update] and [setStatus].  The store's
    own complaint about a row gone never gets out. *)
Theorem failure_changes_nothing ctx m st e st' :
  run ctx m st = (Throw e, st') →
  st' = st
  ∧ ((∃ issues, e = ZodError issues)
     ∨ (∃ raw message, m = Create raw ∧ e = TRPCError FORBIDDEN message)
     ∨ ((∃ raw, m = Update raw ∨ m = SetStatus raw)
        ∧ e = TRPCError NOT_FOUND "Webhook not found")).
Proof.
  destruct m as [raw | raw | raw]; simpl; intros Hrun.
  - destruct (z.parse create_input raw) as [input | issues] eqn:Hin.
    2: { rewrite (create_refused ctx raw st issues Hin) in Hrun.
         injection Hrun as <- <-. eauto. }
    destruct (decide (getWebhookLimit (team ctx) ≤ held (Team.id (team ctx)) st)%nat)
      as [Hfull | Hroom].
    { rewrite (create_full ctx raw st input Hin Hfull) in Hrun.
      injection Hrun as <- <-. eauto 10. }
    pose proof (create_room ctx raw st input Hin ltac:(lia)) as Heq.
    destruct (created_secret input st) as [secret e0].
    destruct (prisma.create _ _) as [row t]. by rewrite Heq in Hrun.
  - destruct (z.parse update_input raw) as [input | issues] eqn:Hin.
    2: { rewrite (update_refused ctx raw st issues Hin) in Hrun.
         injection Hrun as <- <-. eauto. }
    destruct (reachable_cases ctx (UpdateInput.id input) st)
      as [Hun | (w & Hw & Hteam & Hlive)].
    { rewrite (update_missing ctx raw st input Hin Hun) in Hrun.
      injection Hrun as <- <-. split; [done |]. right. right. eauto. }
    pose proof (update_found ctx raw st input w Hin Hw Hteam Hlive) as Heq.
    destruct (update_secret input st) as [secret e0]. by rewrite Heq in Hrun.
  - destruct (z.parse setStatus_input raw) as [input | issues] eqn:Hin.
    2: { rewrite (setStatus_refused ctx raw st issues Hin) in Hrun.
         injection Hrun as <- <-. eauto. }
    destruct (reachable_cases ctx (SetStatusInput.id input) st)
      as [Hun | (w & Hw & Hteam & Hlive)].
    { rewrite (setStatus_missing ctx raw st input Hin Hun) in Hrun.
      injection Hrun as <- <-. split; [done |]. right. right. eauto. }
    by rewrite (setStatus_found ctx raw st input w Hin Hw Hteam Hlive) in Hrun.
Qed.

(** What a request does to one row of [db.webhook]: it leaves the row,
    or it is an accepted [update] or [setStatus] of that row by the
    team that owns it, the row not DELETED. *)
Lemma after_row ctx m st id w :
  webhook st !! id = Some w →
  webhook (after ctx m st) !! id = Some w
  ∨ (Webhook.teamId w = Team.id (team ctx) ∧ Webhook.status w ≠ DELETED
     ∧ ((∃ raw input, m = Update raw ∧ z.parse update_input raw = z.OK input
           ∧ UpdateInput.id input = id
           ∧ webhook (after ctx m st) !! id
             = Some (update_data input (update_secret input st).1 w w))
        ∨ (∃ raw input, m = SetStatus raw ∧ z.parse setStatus_input raw = z.OK input
             ∧ SetStatusInput.id input = id
             ∧ webhook (after ctx m st) !! id = Some (setStatus_data input w w)))).
Proof.
  intros Hw. generalize (after_effect ctx m st).
  generalize (webhook (after ctx m st)). intros t Heff.
  destruct Heff as [m | raw input id' Hin Hfresh | raw input w0 Hin Hw0 Hteam Hlive
                   | raw input w0 Hin Hw0 Hteam Hlive].
  - by left.
  - left. rewrite lookup_insert_ne by congruence. done.
  - destruct (decide (UpdateInput.id input = id)) as [<- | Hne].
    + assert (w0 = w) as -> by congruence. right. split_and!; [done .. |].
      left. exists raw, input. by rewrite lookup_insert_eq.
    + left. by rewrite lookup_insert_ne.
  - destruct (decide (SetStatusInput.id input = id)) as [<- | Hne].
    + assert (w0 = w) as -> by congruence. right. split_and!; [done .. |].
      right. exists raw, input. by rewrite lookup_insert_eq.
    + left. by rewrite lookup_insert_ne.
Qed.

(** No request of one team changes a subscription of another. *)
Theorem other_teams_untouched ctx m st id w :
  webhook st !! id = Some w →
  Webhook.teamId w ≠ Team.id (team ctx) →
  webhook (after ctx m st) !! id = Some w.
Proof.
  intros Hw Hteam. by destruct (after_row ctx m st id w Hw) as [? | (? & _)].
Qed.

(** A DELETED subscription stays as it is under every request, and no
    request makes a subscription DELETED: the rows, old or new, that
    are not DELETED before are not DELETED after. *)
Theorem deleted_is_final ctx m st id :
  (∀ w, webhook st !! id = Some w → Webhook.status w = DELETED →
        webhook (after ctx m st) !! id = Some w)
  ∧ (∀ w', webhook (after ctx m st) !! id = Some w' → Webhook.status w' = DELETED →
        webhook st !! id = Some w').
Proof.
  split.
  - intros w Hw Hdel. by destruct (after_row ctx m st id w Hw) as [? | (_ & ? & _)].
  - intros w' Hw' Hdel. revert Hw'. generalize (after_effect ctx m st).
    generalize (webhook (after ctx m st)). intros t Heff Hw'.
    destruct Heff as [m | raw input id' Hin Hfresh | raw input w0 Hin Hw0 Hteam Hlive
                     | raw input w0 Hin Hw0 Hteam Hlive].
    + done.
    + destruct (decide (id' = id)) as [-> | Hne].
      * rewrite lookup_insert_eq in Hw'. injection Hw' as <-. done.
      * by rewrite lookup_insert_ne in Hw'.
    + destruct (decide (UpdateInput.id input = id)) as [<- | Hne].
      * rewrite lookup_insert_eq in Hw'. injection Hw' as <-. done.
      * by rewrite lookup_insert_ne in Hw'.
    + destruct (decide (SetStatusInput.id input = id)) as [<- | Hne].
      * rewrite lookup_insert_eq in Hw'. injection Hw' as <-. simpl in Hdel.
        by apply setStatus_input_OK in Hin.
      * by rewrite lookup_insert_ne in Hw'.
Qed.

(** Through any history of requests a subscription stays in the table,
    of the team and by the user it was created for. *)
Theorem rows_persist history st id w :
  webhook st !! id = Some w →
  ∃ w', webhook (replay history st) !! id = Some w'
    ∧ Webhook.teamId w' = Webhook.teamId w
    ∧ Webhook.createdByUserId w' = Webhook.createdByUserId w.
Proof.
  revert st w. induction history as [| [ctx m] history IH]; intros st w Hw; [eauto |].
  simpl. destruct (after_row ctx m st id w Hw)
    as [Hsame | (_ & _ & [(raw & input & _ & _ & _ & Hnew)
                         | (raw & input & _ & _ & _ & Hnew)])].
  - by apply IH.
  - destruct (IH _ _ Hnew) as (w' & ? & ? & ?). by exists w'.
  - destruct (IH _ _ Hnew) as (w' & ? & ? & ?). by exists w'.
Qed.
(** What the schemas make of an optional string. *)
Lemma optional_string_OK p v o :
  z.optional z.string p v = z.OK o →
  match v with
  | undefined => o = None
  | _ => ∃ s, v = JsString s ∧ o = Some s
  end.
Proof.
  rewrite optional_OK. intros [[-> ->] | [Hv (s & H & ->)]]; [done |].
  apply string_OK in H as ->. eauto.
Qed.

(** The [description] of an accepted [update]: absent, [null], or a
    string. *)
Lemma update_input_description raw input :
  z.parse update_input raw = z.OK input →
  match get "description" raw with
  | undefined => UpdateInput.description input = None
  | null => UpdateInput.description input = Some None
  | v => ∃ d, v = JsString d ∧ UpdateInput.description input = Some (Some d)
  end.
Proof.
  unfold z.parse, update_input, z.object.
  destruct raw as [| | | | | | props]; try done.
  rewrite map_result_OK. intros [(i & u & d & e & r & sc) [H ->]].
  apply both_OK in H as [_ H]. apply both_OK in H as [_ H].
  apply both_OK in H as [Hd _]. simpl. unfold z.prop in Hd. simpl in Hd.
  apply optional_OK in Hd as [[-> ->] | [Hv (o & Hd & ->)]]; [done |].
  unfold z.nullable in Hd.
  destruct (lookup_prop "description" props) as [| | | | s | |] eqn:Hget;
    try done; try by injection Hd as <-.
  cbv in Hd. injection Hd as <-. eauto.
Qed.

(** The [url] and the [rotateSecret] of an accepted [update]. *)
Lemma update_input_url raw input :
  z.parse update_input raw = z.OK input →
  match get "url" raw with
  | undefined => UpdateInput.url input = None
  | v => ∃ u, v = JsString u ∧ UpdateInput.url input = Some u
  end
  ∧ match get "rotateSecret" raw with
    | undefined => UpdateInput.rotateSecret input = None
    | v => ∃ b, v = JsBoolean b ∧ UpdateInput.rotateSecret input = Some b
    end.
Proof.
  unfold z.parse, update_input, z.object.
  destruct raw as [| | | | | | props]; try done.
  rewrite map_result_OK. intros [(i & u & d & e & r & sc) [H ->]].
  apply both_OK in H as [_ H]. apply both_OK in H as [Hu H].
  apply both_OK in H as [_ H]. apply both_OK in H as [_ H].
  apply both_OK in H as [Hr _]. simpl. unfold z.prop in Hu, Hr. simpl in Hu, Hr. split.
  - apply optional_OK in Hu as [[-> ->] | [Hv (o & Hu & ->)]]; [done |].
    apply check_OK in Hu as [Hu _]. apply string_OK in Hu. rewrite Hu. eauto.
  - apply optional_OK in Hr as [[-> ->] | [Hv (o & Hr & ->)]]; [done |].
    destruct (lookup_prop "rotateSecret" props); try done.
    cbv in Hr. injection Hr as <-. eauto.
Qed.

(** When [create] returns, it has added one row under an id no row
    had, and left the rows there were and the call records alone.  The
    row is ACTIVE, of the team and by the user of the request, and
    says what the request says: its [url], its [eventTypes], its
    [description] if any, and its [secret] if any, in which case no
    token is drawn. *)
Theorem create_adds_one_row ctx raw st row st' :
  create ctx raw st = (Return row, st') →
  webhook st !! row.1 = None
  ∧ webhook st' = <[row.1 := row.2]> (webhook st)
  ∧ webhookCall st' = webhookCall st
  ∧ Webhook.status row.2 = ACTIVE
  ∧ Webhook.teamId row.2 = Team.id (team ctx)
  ∧ Webhook.createdByUserId row.2 = session_user_id ctx
  ∧ Webhook.consecutiveFailures row.2 = consecutiveFailures_default
  ∧ get "url" raw = JsString (Webhook.url row.2)
  ∧ get "eventTypes" raw = JsArray (JsString <$> Webhook.eventTypes row.2)
  ∧ match get "description" raw with
    | undefined => Webhook.description row.2 = None
    | v => ∃ d, v = JsString d ∧ Webhook.description row.2 = Some d
    end
  ∧ match get "secret" raw with
    | undefined => True
    | v => v = JsString (Webhook.secret row.2) ∧ entropy st' = entropy st
    end.
Proof.
  intros Hrun.
  destruct (create_returns ctx raw st row st' Hrun) as (input & Hin & Hfresh & Hrow & ->).
  destruct (create_input_OK _ _ raw input Hin) as (Hu & Hd & He & Hs).
  rewrite Hrow. simpl. split_and!; try done.
  - apply check_OK in Hu as [Hu _]. by apply string_OK in Hu.
  - by apply eventTypes_OK in He as (? & _).
  - apply optional_string_OK in Hd. by destruct (get "description" raw).
  - apply secret_OK in Hs. unfold created_secret.
    destruct (CreateInput.secret input) as [s |].
    + destruct Hs as [-> _]. done.
    + by rewrite Hs.
Qed.

(** The subscription [create] returns can be managed at once by the
    team that created it, and by no other: an accepted [setStatus] of
    its id returns the row with the new status to the one, and throws
    NOT_FOUND to the other. *)
Theorem created_is_reachable ctx ctx' raw st row st' raw2 input2 :
  create ctx raw st = (Return row, st') →
  z.parse setStatus_input raw2 = z.OK input2 →
  SetStatusInput.id input2 = row.1 →
  (Team.id (team ctx') = Team.id (team ctx) →
   setStatus ctx' raw2 st'
   = (Return (row.1, setStatus_data input2 row.2 row.2),
      with_webhook (<[row.1 := setStatus_data input2 row.2 row.2]> (webhook st')) st'))
  ∧ (Team.id (team ctx') ≠ Team.id (team ctx) →
     setStatus ctx' raw2 st' = (Throw (TRPCError NOT_FOUND "Webhook not found"), st')).
Proof.
  intros Hrun Hin2 Hid.
  destruct (create_returns ctx raw st row st' Hrun) as (input & Hin & Hfresh & Hrow & ->).
  assert (webhook (with_webhook (<[row.1 := row.2]> (webhook st))
                     (with_entropy (created_secret input st).2 st)) !! row.1
          = Some row.2) as Hnew by (simpl; apply lookup_insert_eq).
  split; intros Hteam.
  - rewrite <- Hid. apply setStatus_found; [done | by rewrite Hid | |].
    + rewrite Hrow. simpl. congruence.
    + by rewrite Hrow.
  - apply (setStatus_missing ctx' raw2 _ input2 Hin2). right. exists row.2.
    rewrite Hid. split; [done |]. left. rewrite Hrow. simpl. congruence.
Qed.

(** A team that is not active gets the free limit whatever its plan:
    holding one subscription, it is refused another. *)
Theorem inactive_team_limit ctx raw input st :
  z.parse create_input raw = z.OK input →
  Team.isActive (team ctx) = false →
  (1 ≤ held (Team.id (team ctx)) st)%nat →
  create ctx raw st
  = (Throw (TRPCError FORBIDDEN (limit_message (held (Team.id (team ctx)) st) 1)), st).
Proof.
  intros Hin Hinactive Hheld.
  assert (getWebhookLimit (team ctx) = 1%nat) as Hlimit.
  { unfold getWebhookLimit. by rewrite Hinactive. }
  rewrite (create_full ctx raw st input Hin) by (rewrite Hlimit; lia).
  by rewrite Hlimit.
Qed.

(** [update] takes the requests [update_request] describes, for the
    input described, and no other. *)
Lemma update_input_spec raw input :
  z.parse update_input raw = z.OK input
  ↔ update_request isUrl WEBHOOK_EVENT_TYPES raw input.
Proof using Type.
  unfold z.parse, update_input, z.object, update_request.
  destruct raw as [| | | | | | props];
    try (split; [done | by intros [[props [=]] _]]).
  rewrite map_result_OK. unfold z.prop, EVENT_TYPES_ENUM. split.
  - intros [(i & u & d & e & r & s) [H ->]]. simpl.
    apply both_OK in H as [Hi H]. apply both_OK in H as [Hu H].
    apply both_OK in H as [Hd H]. apply both_OK in H as [He H].
    apply both_OK in H as [Hr Hs].
    apply string_OK in Hi. apply optional_url_spec in Hu.
    apply optional_nullable_string_spec in Hd. apply optional_eventTypes_spec in He.
    apply optional_boolean_spec in Hr. apply optional_secret_spec in Hs.
    split; [by exists props |]. done.
  - intros (_ & Hi & Hu & Hd & He & Hr & Hs). destruct input as [i u d e r s].
    simpl in *. exists (i, (u, (d, (e, (r, s))))). split; [| done].
    rewrite !both_OK.
    split_and!;
      [by apply string_OK | by apply optional_url_spec
      | by apply optional_nullable_string_spec | by apply optional_eventTypes_spec
      | by apply optional_boolean_spec | by apply optional_secret_spec].
Qed.

(** [create] refuses a [description] of [null].  [update] takes it: a
    request [update] takes, for a subscription the team can reach,
    returns the row and stores it, with no description when the
    request says [null], with the description the row had when the
    request has none, and with the string when it has one.  And
    whenever [update] returns, the description of the row is one of
    these three. *)
Theorem description_handling ctx raw st :
  (get "description" raw = null →
   ∃ issues, create ctx raw st = (Throw (ZodError issues), st))
  ∧ (∀ input w,
       update_request isUrl WEBHOOK_EVENT_TYPES raw input →
       webhook st !! UpdateInput.id input = Some w →
       Webhook.teamId w = Team.id (team ctx) →
       Webhook.status w ≠ DELETED →
       ∃ row st',
         update ctx raw st = (Return row, st')
         ∧ row.1 = UpdateInput.id input
         ∧ webhook st' !! row.1 = Some row.2
         ∧ Webhook.description row.2
           = match get "description" raw with
             | null => None
             | JsString d => Some d
             | _ => Webhook.description w
             end)
  ∧ (∀ row st', update ctx raw st = (Return row, st') →
     ∃ w, webhook st !! row.1 = Some w
       ∧ match get "description" raw with
         | undefined => Webhook.description row.2 = Webhook.description w
         | null => Webhook.description row.2 = None
         | v => ∃ d, v = JsString d ∧ Webhook.description row.2 = Some d
         end).
Proof.
  split_and!.
  - intros Hnull. destruct (z.parse create_input raw) as [input | issues] eqn:Hin.
    + destruct (create_input_OK _ _ raw input Hin) as (_ & Hd & _).
      apply optional_string_OK in Hd. rewrite Hnull in Hd. by destruct Hd as (? & ? & _).
    + exists issues. by apply create_refused.
  - intros input w Hreq Hw Hteam Hlive.
    pose proof (proj2 (update_input_spec raw input) Hreq) as Hin.
    pose proof (update_found ctx raw st input w Hin Hw Hteam Hlive) as Hrun.
    destruct (update_secret input st) as [secret e]. rewrite Hrun.
    eexists _, _. split; [done |]. simpl. split; [done |].
    split; [apply lookup_insert_eq |].
    destruct Hreq as (_ & _ & _ & Hd & _).
    destruct (get "description" raw); try done; by rewrite Hd.
  - intros row st' Hrun.
    destruct (update_returns ctx raw st row st' Hrun)
      as (input & w & Hin & Hw & _ & _ & -> & _).
    exists w. split; [done |]. simpl.
    pose proof (update_input_description raw input Hin) as Hd.
    destruct (get "description" raw); try (by rewrite Hd);
      destruct Hd as (d & Hv & ->); eauto.
Qed.
(** A state is its three fields. *)
Lemma with_webhook_id st :
  with_webhook (webhook st) (with_entropy (entropy st) st) = st.
Proof using Type. by destruct st. Qed.

(** An [update] that names only the [id] changes nothing: it returns
    the row as it is stored and leaves the state as it was. *)
Theorem update_nothing_named ctx raw st row st' :
  update ctx raw st = (Return row, st') →
  get "url" raw = undefined →
  get "description" raw = undefined →
  get "eventTypes" raw = undefined →
  get "rotateSecret" raw = undefined →
  get "secret" raw = undefined →
  st' = st ∧ webhook st !! row.1 = Some row.2.
Proof.
  intros Hrun Hurl Hdesc Hevents Hrot Hsecret.
  destruct (update_returns ctx raw st row st' Hrun)
    as (input & w & Hin & Hw & _ & _ & -> & ->).
  destruct (update_input_OK _ _ raw input Hin) as (_ & He & _ & Hs).
  destruct (update_input_url raw input Hin) as (Hu & Hr).
  pose proof (update_input_description raw input Hin) as Hd.
  rewrite Hurl in Hu. rewrite Hrot in Hr. rewrite Hdesc in Hd.
  rewrite Hevents in He. rewrite Hsecret in Hs.
  injection He as He. injection Hs as Hs.
  assert (update_secret input st = (None, entropy st)) as Hsec.
  { unfold update_secret. rewrite Hr, <- Hs. by rewrite bool_decide_eq_false_2. }
  assert (update_data input (update_secret input st).1 w w = w) as Hsame.
  { rewrite Hsec. unfold update_data. rewrite Hu, Hd, <- He. by destruct w. }
  simpl. rewrite Hsame, Hsec. simpl. rewrite insert_id by done.
  split; [apply with_webhook_id | done].
Qed.

(** An [update] that does not rotate the secret can be sent twice: the
    second time it returns the same row and leaves the state the first
    left. *)
Theorem update_twice ctx raw st row st' :
  update ctx raw st = (Return row, st') →
  get "rotateSecret" raw ≠ JsBoolean true →
  update ctx raw st' = (Return row, st').
Proof.
  intros Hrun Hrot.
  destruct (update_returns ctx raw st row st' Hrun)
    as (input & w & Hin & Hw & Hteam & Hlive & -> & ->).
  destruct (update_input_url raw input Hin) as (_ & Hr).
  assert (UpdateInput.rotateSecret input ≠ Some true) as Hkeep.
  { intros Heq. rewrite Heq in Hr.
    destruct (get "rotateSecret" raw); try done;
      destruct Hr as (b0 & Hv & Hb); congruence. }
  assert (∀ st0 : World Entropy, update_secret input st0 = (UpdateInput.secret input, entropy st0))
    as Hsec.
  { intros st0. unfold update_secret. by rewrite bool_decide_eq_false_2. }
  rewrite Hsec. simpl.
  set (w' := update_data input (UpdateInput.secret input) w w).
  set (st1 := with_webhook (<[UpdateInput.id input := w']> (webhook st))
                (with_entropy (entropy st) st)).
  pose proof (update_found ctx raw st1 input w' Hin) as Heq.
  rewrite Hsec in Heq. rewrite Heq.
  - assert (update_data input (UpdateInput.secret input) w' w' = w') as ->.
    { subst w'. unfold update_data. simpl.
      destruct (UpdateInput.url input), (UpdateInput.description input),
        (UpdateInput.eventTypes input), (UpdateInput.secret input); done. }
    subst st1. simpl. by rewrite insert_insert_eq.
  - subst st1. simpl. apply lookup_insert_eq.
  - done.
  - done.
Qed.

(** A [setStatus] can be sent twice: the second time it returns the
    same row and leaves the state the first left. *)
Theorem setStatus_twice ctx raw st row st' :
  setStatus ctx raw st = (Return row, st') →
  setStatus ctx raw st' = (Return row, st').
Proof using Type.
  intros Hrun.
  destruct (setStatus_returns ctx raw st row st' Hrun)
    as (input & w & Hin & Hw & Hteam & Hlive & -> & ->).
  simpl. set (w' := setStatus_data input w w).
  set (st1 := with_webhook (<[SetStatusInput.id input := w']> (webhook st)) st).
  rewrite (setStatus_found ctx raw st1 input w' Hin).
  - assert (setStatus_data input w' w' = w') as ->.
    { subst w'. unfold setStatus_data. simpl. by case_bool_decide. }
    subst st1. simpl. by rewrite insert_insert_eq.
  - subst st1. simpl. apply lookup_insert_eq.
  - done.
  - simpl. by apply setStatus_input_OK in Hin.
Qed.

(** When [setStatus] returns, the row has the status asked for, which
    is not DELETED; its failures are counted as before unless the
    status is ACTIVE; and nothing else about it has changed. *)
Theorem setStatus_keeps_count ctx raw st row st' :
  setStatus ctx raw st = (Return row, st') →
  ∃ w, webhook st !! row.1 = Some w
    ∧ webhook st' !! row.1 = Some row.2
    ∧ (∃ name, get "status" raw = JsString name
         ∧ (name, Webhook.status row.2) ∈ WebhookStatus_members)
    ∧ Webhook.status row.2 ≠ DELETED
    ∧ (Webhook.status row.2 ≠ ACTIVE →
       Webhook.consecutiveFailures row.2 = Webhook.consecutiveFailures w)
    ∧ row.2 = {| Webhook.status := Webhook.status row.2;
                 Webhook.consecutiveFailures := Webhook.consecutiveFailures row.2;
                 Webhook.teamId := Webhook.teamId w; Webhook.url := Webhook.url w;
                 Webhook.description := Webhook.description w;
                 Webhook.secret := Webhook.secret w;
                 Webhook.eventTypes := Webhook.eventTypes w;
                 Webhook.createdByUserId := Webhook.createdByUserId w |}.
Proof using Type.
  intros Hrun.
  destruct (setStatus_returns ctx raw st row st' Hrun)
    as (input & w & Hin & Hw & Hteam & Hlive & -> & ->).
  exists w. simpl. rewrite lookup_insert_eq. split_and!; try done.
  - revert Hin. unfold z.parse, setStatus_input, z.object.
    destruct raw as [| | | | | | props]; try done.
    rewrite map_result_OK. intros [[i s0] [H ->]]. simpl.
    apply both_OK in H as [_ H]. unfold z.prop, z.refine in H. simpl in H.
    apply check_OK in H as [H _]. unfold z.nativeEnum in H.
    destruct (lookup_prop "status" props) as [| | | | name | |]; try done.
    destruct (list_find (λ m, m.1 = name) WebhookStatus_members)
      as [[k [name' s1]] |] eqn:Hfind; [| done].
    injection H as <-. apply list_find_Some in Hfind as (Hk & Hname & _).
    simpl in Hname. subst name'. exists name. split; [done |].
    by eapply list_elem_of_lookup_2.
  - by apply setStatus_input_OK in Hin.
  - intros Hact. by rewrite bool_decide_eq_false_2.
Qed.
(** ** The queries *)

(** [listCalls], request by request. *)
Lemma listCalls_refused ctx raw st issues :
  z.parse listCalls_input raw = z.INVALID issues →
  listCalls ctx raw st = (Throw (ZodError issues), st).
Proof using Type. intros H. unfold listCalls, procedure. by rewrite H. Qed.

Lemma listCalls_returns ctx raw input st :
  z.parse listCalls_input raw = z.OK input →
  listCalls ctx raw st
  = (Return
       {| ListCallsOutput.items :=
            take (Z.to_nat (ListCallsInput.limit input)) (calls_listing ctx input st);
          ListCallsOutput.nextCursor :=
            fst <$> calls_listing ctx input st !! Z.to_nat (ListCallsInput.limit input) |},
     st).
Proof using Type.
  intros Hin. destruct (listCalls_input_OK raw input Hin) as [Hlimit _].
  unfold listCalls, procedure. rewrite Hin. run. unfold prisma.findMany.
  fold (calls_listing ctx input st).
  replace (Z.to_nat (ListCallsInput.limit input + 1))
    with (S (Z.to_nat (ListCallsInput.limit input))) by lia.
  destruct (decide (Z.to_nat (ListCallsInput.limit input)
                    < length (calls_listing ctx input st))%nat) as [Hmore | Hend].
  - rewrite bool_decide_eq_true_2 by (rewrite length_take_le; lia).
    by rewrite pop_take.
  - rewrite !take_ge by lia. rewrite bool_decide_eq_false_2 by lia.
    by rewrite lookup_ge_None_2 by lia.
Qed.


(** [listCalls] and [getCall] read: whatever the request and whatever
    they answer, the state after is the state before. *)
Theorem queries_change_nothing ctx raw st :
  (listCalls ctx raw st).2 = st ∧ (getCall ctx raw st).2 = st.
Proof using Type.
  split.
  - destruct (z.parse listCalls_input raw) as [input | issues] eqn:Hin.
    + by rewrite (listCalls_returns ctx raw input st Hin).
    + by rewrite (listCalls_refused ctx raw st issues Hin).
  - unfold getCall, procedure. destruct (z.parse id_input raw) as [id | issues]; [| done].
    run. by destruct (prisma.findFirst _ _ _).
Qed.

(** A [limit] that is no number from 1 to 50 is refused: 0 and 51 are,
    and so is anything that is not a number. *)
Theorem listCalls_limit_bounds ctx raw st :
  get "limit" raw ≠ undefined →
  (∀ n, get "limit" raw = JsNumber n → n < 1 ∨ 50 < n) →
  ∃ issues, listCalls ctx raw st = (Throw (ZodError issues), st).
Proof using Type.
  intros Hgiven Hout. destruct (z.parse listCalls_input raw) as [input | issues] eqn:Hin.
  - destruct (listCalls_input_OK raw input Hin) as [Hlimit Hraw].
    destruct (get "limit" raw) eqn:Hget; try done.
    injection Hraw as ->. destruct (Hout _ eq_refl); lia.
  - exists issues. by apply listCalls_refused.
Qed.

(** A request with the empty string for [cursor] gets the answer of
    the same request without a cursor. *)
Theorem empty_cursor_is_no_cursor ctx raw raw' input st :
  z.parse listCalls_input raw = z.OK input →
  ListCallsInput.cursor input = Some ""%string →
  z.parse listCalls_input raw'
    = z.OK {| ListCallsInput.webhookId := ListCallsInput.webhookId input;
              ListCallsInput.status := ListCallsInput.status input;
              ListCallsInput.limit := ListCallsInput.limit input;
              ListCallsInput.cursor := None |} →
  listCalls ctx raw st = listCalls ctx raw' st.
Proof using Type.
  intros Hin Hcursor Hin'.
  rewrite (listCalls_returns ctx raw input st Hin).
  rewrite (listCalls_returns ctx raw' _ st Hin').
  unfold calls_listing. simpl. by rewrite Hcursor.
Qed.

(** The next page starts where the page ends.  When a page comes with
    a [nextCursor], the same request with that cursor returns the
    records of the listing that follow the page, [limit] at most, and
    the cursor of the page after; the two pages together are the first
    [2 * limit] records of the listing.  This needs the cursor not to
    be the empty string, which [listCalls] takes for no cursor. *)
Theorem next_page_continues ctx raw1 raw2 input1 st out1 c :
  z.parse listCalls_input raw1 = z.OK input1 →
  listCalls ctx raw1 st = (Return out1, st) →
  ListCallsOutput.nextCursor out1 = Some c →
  c ≠ ""%string →
  z.parse listCalls_input raw2
    = z.OK {| ListCallsInput.webhookId := ListCallsInput.webhookId input1;
              ListCallsInput.status := ListCallsInput.status input1;
              ListCallsInput.limit := ListCallsInput.limit input1;
              ListCallsInput.cursor := Some c |} →
  let n := Z.to_nat (ListCallsInput.limit input1) in
  let listing := calls_listing ctx input1 st in
  ∃ out2,
    listCalls ctx raw2 st = (Return out2, st)
    ∧ ListCallsOutput.items out2 = take n (drop n listing)
    ∧ ListCallsOutput.items out1 ++ ListCallsOutput.items out2 = take (n + n) listing
    ∧ ListCallsOutput.nextCursor out2 = fst <$> listing !! (n + n)%nat.
Proof using Type.
  intros Hin1 Hrun1 Hnext Hc Hin2 n listing.
  rewrite (listCalls_returns ctx raw1 input1 st Hin1) in Hrun1.
  injection Hrun1 as <-. simpl in Hnext. fold n listing in Hnext.
  destruct (listing !! n) as [r |] eqn:Hr; [| done]. injection Hnext as <-.
  rewrite (listCalls_returns ctx raw2 _ st Hin2). eexists. split; [done |].
  assert (calls_listing ctx
            {| ListCallsInput.webhookId := ListCallsInput.webhookId input1;
               ListCallsInput.status := ListCallsInput.status input1;
               ListCallsInput.limit := ListCallsInput.limit input1;
               ListCallsInput.cursor := Some r.1 |} st = drop n listing) as ->.
  { unfold calls_listing. simpl. rewrite bool_decide_eq_false_2 by done.
    by apply ordered_from. }
  simpl. fold n listing. split_and!; [done | apply take_take_drop |].
  by rewrite lookup_drop.
Qed.

(** Every record a page shows can be fetched by its id: [getCall]
    returns it to the same team. *)
Theorem listed_call_is_found ctx raw st out call raw_id :
  listCalls ctx raw st = (Return out, st) →
  call ∈ ListCallsOutput.items out →
  z.parse id_input raw_id = z.OK call.1 →
  getCall ctx raw_id st = (Return call, st).
Proof using Type.
  intros Hrun Hcall Hid.
  destruct (z.parse listCalls_input raw) as [input | issues] eqn:Hin.
  2: { by rewrite (listCalls_refused ctx raw st issues Hin) in Hrun. }
  rewrite (listCalls_returns ctx raw input st Hin) in Hrun. injection Hrun as <-.
  simpl in Hcall. apply elem_of_take in Hcall as (i & Hi & _).
  apply list_elem_of_lookup_2, ordered_elem in Hi as [Hstored Hclause].
  unfold calls_of in Hclause. apply andb_prop in Hclause as [Hclause _].
  apply andb_prop in Hclause as [Hteam _]. apply bool_decide_eq_true in Hteam.
  destruct call as [id c]. by apply getCall_found.
Qed.
(** ** [list] *)

Section list_facts.
Context (createdAt : string → Z).

Local Abbreviation list_of ctx st :=
  (prisma.ordered (held_by (Team.id (team ctx))) (webhookRouter.newest_first createdAt)
     None (webhook st)).

Lemma list_returns ctx st :
  webhookRouter.list createdAt ctx st = (Return (list_of ctx st), st).
Proof using Type. done. Qed.

Lemma list_elem ctx st id w :
  (id, w) ∈ list_of ctx st ↔
    webhook st !! id = Some w
    ∧ Webhook.teamId w = Team.id (team ctx) ∧ Webhook.status w ≠ DELETED.
Proof using Type.
  clear isUrl WEBHOOK_EVENT_TYPES generateSecret_draw consecutiveFailures_default.
  rewrite ordered_all, elem_of_map_to_list, map_lookup_filter_Some.
  unfold prisma.matching, held_by. simpl.
  rewrite andb_true_iff, !bool_decide_eq_true. tauto.
Qed.

(** [list] returns the subscriptions of the team that are not DELETED:
    all of them, each once, no other, the newest first; they are as
    many as [create] counts against the plan limit.  It changes
    nothing. *)
Theorem list_shows_held ctx st :
  ∃ rows,
    webhookRouter.list createdAt ctx st = (Return rows, st)
    ∧ NoDup rows.*1
    ∧ (∀ id w, (id, w) ∈ rows ↔
         webhook st !! id = Some w
         ∧ Webhook.teamId w = Team.id (team ctx) ∧ Webhook.status w ≠ DELETED)
    ∧ length rows = held (Team.id (team ctx)) st
    ∧ StronglySorted (λ a b, createdAt b.1 ≤ createdAt a.1) rows.
Proof using Type.
  exists (list_of ctx st). split_and!.
  - done.
  - apply ordered_keys_NoDup.
  - apply list_elem.
  - rewrite ordered_all. apply length_map_to_list.
  - unfold prisma.ordered.
    assert (Transitive (webhookRouter.newest_first createdAt)) as Htrans.
    { intros a b c. unfold webhookRouter.newest_first. lia. }
    assert (Total (webhookRouter.newest_first createdAt)) as Htotal.
    { intros a b. unfold webhookRouter.newest_first. lia. }
    apply (StronglySorted_merge_sort (webhookRouter.newest_first createdAt)).
Qed.

(** After [create] returns, [list] shows the team the new subscription
    beside those it showed before, and no more than the plan allows. *)
Theorem list_after_create ctx raw st row st' :
  create ctx raw st = (Return row, st') →
  ∃ rows rows',
    webhookRouter.list createdAt ctx st = (Return rows, st)
    ∧ webhookRouter.list createdAt ctx st' = (Return rows', st')
    ∧ (∀ r, r ∈ rows' ↔ r = row ∨ r ∈ rows)
    ∧ length rows' = S (length rows)
    ∧ (length rows' ≤ getWebhookLimit (team ctx))%nat.
Proof.
  intros Hrun. exists (list_of ctx st), (list_of ctx st').
  split; [done |]. split; [done |].
  assert (held (Team.id (team ctx)) st < getWebhookLimit (team ctx))%nat as Hroom.
  { destruct (create_returns ctx raw st row st' Hrun) as (input & Hin & _).
    destruct (decide (getWebhookLimit (team ctx) ≤ held (Team.id (team ctx)) st)%nat)
      as [Hfull |]; [| lia].
    by rewrite (create_full ctx raw st input Hin Hfull) in Hrun. }
  destruct (create_returns ctx raw st row st' Hrun) as (input & Hin & Hfresh & Hrow & ->).
  assert (length (list_of ctx st) = held (Team.id (team ctx)) st) as Hlen.
  { rewrite ordered_all. apply length_map_to_list. }
  set (st1 := with_webhook (<[row.1 := row.2]> (webhook st))
                (with_entropy (created_secret input st).2 st)).
  assert (length (list_of ctx st1) = S (held (Team.id (team ctx)) st)) as Hlen'.
  { rewrite ordered_all, length_map_to_list. subst st1. simpl.
    rewrite map_filter_insert_True.
    - apply map_size_insert_None, map_lookup_filter_None. by left.
    - unfold prisma.matching, held_by. simpl. rewrite Hrow. simpl.
      by rewrite !bool_decide_eq_true_2. }
  split_and!.
  - intros [id w]. rewrite !list_elem. subst st1. destruct row as [rid rw]. simpl in *.
    destruct (decide (id = rid)) as [-> | Hne].
    + rewrite lookup_insert_eq. split.
      * intros ([= <-] & _). by left.
      * intros [[= ->] | (Hold & _)]; [| congruence].
        split; [done |]. by rewrite Hrow.
    + rewrite lookup_insert_ne by done. split; [by right |].
      intros [[= -> ->] | ?]; done.
  - by rewrite Hlen', Hlen.
  - rewrite Hlen'. lia.
Qed.
End list_facts.
End MoreFacts.

(** ** The one-click unsubscribe route *)

Section route_facts.
Import Stdlib.Strings.Ascii.
Import unsubscribe_oneclick.
Context (URL_searchParams : string → string + list (string * string)).
Context {Service : Type}.
Context (unsubscribeContactFromLink :
  string → string → option string → option string → Service → (string + Contact.t) * Service).

Local Abbreviation POST := (POST URL_searchParams Service unsubscribeContactFromLink).

Implicit Types (request : NextRequest) (st : State Service).

(** A link without [id] or without [hash], or with an empty one, is
    answered 400 "Invalid unsubscribe link"; the campaign service is
    not called, and one warning is logged. *)
Theorem POST_invalid_link request st searchParams :
  URL_searchParams (url request) = inr searchParams →
  searchParams_get "id" searchParams = None
  ∨ searchParams_get "id" searchParams = Some ""%string
  ∨ searchParams_get "hash" searchParams = None
  ∨ searchParams_get "hash" searchParams = Some ""%string →
  ∃ message,
    POST request st
    = ({| body := JsObject [("error", JsString "Invalid unsubscribe link")]%string;
          status := 400 |},
       {| service := service Service st; log := log Service st ++ [warn message] |}).
Proof.
  intros Hurl Hmissing. unfold unsubscribe_oneclick.POST. rewrite Hurl.
  assert (falsy (searchParams_get "id" searchParams)
          || falsy (searchParams_get "hash" searchParams) = true) as ->.
  { apply orb_true_iff. destruct Hmissing as [-> | [-> | [-> | ->]]]; auto. }
  eexists. reflexivity.
Qed.

(** A link with [id] and [hash] reaches the campaign service, once,
    with the two and with [contactBookId] and [list] as far as the link
    has them.  If the service returns, the answer is 200 with
    [success] true; if it throws, the answer is 500 "Failed to process
    unsubscribe request".  Either way the service is left as the call
    left it, and one line is logged. *)
Theorem POST_calls_service request st searchParams id hash :
  URL_searchParams (url request) = inr searchParams →
  searchParams_get "id" searchParams = Some id → id ≠ ""%string →
  searchParams_get "hash" searchParams = Some hash → hash ≠ ""%string →
  let contactBookId := searchParams_get "contactBookId" searchParams in
  let list_ := searchParams_get "list" searchParams in
  let called := unsubscribeContactFromLink id hash contactBookId list_ (service Service st) in
  POST request st
  = match called.1 with
    | inr contact =>
        ({| body := JsObject [("success", JsBoolean true);
                              ("message", JsString "Successfully unsubscribed")]%string;
            status := 200 |},
         {| service := called.2;
            log := log Service st
                   ++ [info (Contact.id contact) (split "-"%char id !! 1%nat)
                         contactBookId list_ "One-click unsubscribe successful"] |})
    | inl thrown =>
        ({| body := JsObject [("error",
                               JsString "Failed to process unsubscribe request")]%string;
            status := 500 |},
         {| service := called.2;
            log := log Service st ++ [error thrown "One-click unsubscribe failed"] |})
    end.
Proof.
  intros Hurl Hid Hid' Hhash Hhash' contactBookId list_ called.
  unfold unsubscribe_oneclick.POST. rewrite Hurl, Hid, Hhash. simpl.
  rewrite !bool_decide_eq_false_2 by done. simpl.
  fold contactBookId list_ called. by destruct called as [[thrown | contact] service'].
Qed.

(** The answer is 200, 400 or 500, and one line is logged, whatever
    the request.  It is 200 only if the link has an [id] and a [hash]
    and the campaign service has returned a contact for them. *)
Theorem POST_success_only_by_service request st :
  (status (POST request st).1 = 200
   ∨ status (POST request st).1 = 400 ∨ status (POST request st).1 = 500)
  ∧ length (log Service (POST request st).2) = S (length (log Service st))
  ∧ (status (POST request st).1 = 200 →
     ∃ searchParams id hash contact service',
       URL_searchParams (url request) = inr searchParams
       ∧ searchParams_get "id" searchParams = Some id ∧ id ≠ ""%string
       ∧ searchParams_get "hash" searchParams = Some hash ∧ hash ≠ ""%string
       ∧ unsubscribeContactFromLink id hash
           (searchParams_get "contactBookId" searchParams)
           (searchParams_get "list" searchParams) (service Service st)
         = (inr contact, service')
       ∧ service Service (POST request st).2 = service').
Proof.
  unfold unsubscribe_oneclick.POST.
  destruct (URL_searchParams (url request)) as [thrown | searchParams] eqn:Hurl.
  { simpl. rewrite length_app. simpl. split_and!; [auto | lia | done]. }
  destruct (searchParams_get "id" searchParams) as [id |] eqn:Hid; simpl.
  2: { rewrite length_app. simpl. split_and!; [auto | lia | done]. }
  case_bool_decide as Hid'; simpl.
  { rewrite length_app. simpl. split_and!; [auto | lia | done]. }
  destruct (searchParams_get "hash" searchParams) as [hash |] eqn:Hhash; simpl.
  2: { rewrite length_app. simpl. split_and!; [auto | lia | done]. }
  case_bool_decide as Hhash'; simpl.
  { rewrite length_app. simpl. split_and!; [auto | lia | done]. }
  destruct (unsubscribeContactFromLink id hash _ _ _) as [[thrown | contact] service'] eqn:Hcall;
    simpl; rewrite length_app; simpl; (split_and!; [auto | lia |]); [done |].
  intros _. by exists searchParams, id, hash, contact, service'.
Qed.
End route_facts.

(** ** The store of the upgrade modal *)

Section store_facts.
Import upgradeModalStore.
Context {LimitReason : Type}.

(** Whatever the actions called and whatever the state they start
    from, the last action decides: after [openModal] the modal is open
    with the reason given, if any; after [closeModal] the store is as
    it was at first.  So from the first state on, a closed modal never
    has a reason. *)
Theorem last_action_decides (s : State LimitReason) (actions : list (Action LimitReason)) :
  (∀ a, foldl (dispatch LimitReason) s (actions ++ [a])
        = match a with
          | OpenModal _ modalReason => {| isOpen := true; reason := modalReason |}
          | CloseModal _ => initial LimitReason
          end)
  ∧ (isOpen LimitReason (foldl (dispatch LimitReason) (initial LimitReason) actions) = false →
     reason LimitReason (foldl (dispatch LimitReason) (initial LimitReason) actions) = None).
Proof.
  split.
  - intros a. rewrite foldl_app. by destruct a.
  - destruct actions as [| a actions] using rev_ind; [done |].
    rewrite foldl_app. by destruct a.
Qed.
End store_facts.

(** ** The email composer *)

Section composer_facts.
Import EmailComposer.
Context {Editor : Type} (setContent insertContent : Text → Editor → Editor).
Context (getHTML : Editor → Text).

Local Abbreviation insertVariable := (insertVariable Editor setContent insertContent getHTML).

(** In HTML mode the token replaces the selection and the caret lands
    behind it: what is before the caret is the text before the
    selection and the token, what is after it is the text after the
    selection.  The editor, if there is one, is given the new text
    itself, never the empty paragraph. *)
Theorem insertVariable_replaces_selection variable (c : Composer Editor) textarea :
  mode Editor c = html →
  htmlTextareaRef Editor c = Some textarea →
  (selectionStart textarea ≤ selectionEnd textarea ≤ length (htmlValue Editor c))%nat →
  let token := braces_open ++ variable ++ braces_close in
  let c' := insertVariable variable c in
  let caret := (selectionStart textarea + length variable + 4)%nat in
  htmlTextareaRef Editor c' = Some {| selectionStart := caret; selectionEnd := caret |}
  ∧ take caret (htmlValue Editor c')
    = take (selectionStart textarea) (htmlValue Editor c) ++ token
  ∧ drop caret (htmlValue Editor c') = drop (selectionEnd textarea) (htmlValue Editor c)
  ∧ (length (htmlValue Editor c') + (selectionEnd textarea - selectionStart textarea)
     = length (htmlValue Editor c) + length variable + 4)%nat
  ∧ editor Editor c' = setContent (htmlValue Editor c') <$> editor Editor c.
Proof.
  intros Hmode Href Hsel token c' caret. subst c'. unfold EmailComposer.insertVariable.
  rewrite Hmode, decide_True, Href by done.
  cbn [htmlValue htmlTextareaRef editor]. unfold slice, slice_from. rewrite drop_0.
  assert (length token = (length variable + 4)%nat) as Htoken.
  { subst token. rewrite !length_app. simpl. lia. }
  fold token. rewrite Htoken, Nat.add_assoc. fold caret.
  assert (length (take (selectionStart textarea) (htmlValue Editor c) ++ token) = caret)
    as Hlen.
  { rewrite length_app, length_take_le, Htoken by lia. subst caret. lia. }
  split_and!.
  - done.
  - rewrite app_assoc, take_app_length'; done.
  - rewrite app_assoc, drop_app_length'; done.
  - rewrite !length_app, length_take_le, length_drop, Htoken by lia. lia.
  - destruct (take _ _ ++ token ++ _) as [| x l] eqn:Hnil; [| done].
    apply (f_equal length) in Hnil. rewrite !length_app, Htoken in Hnil. simpl in Hnil. lia.
Qed.

(** Whichever way the token goes in, the parent hears of it once, and
    hears the very text the component now holds; without textarea and
    without editor that text is the old one with the token at its
    end. *)
Theorem insertVariable_tells_parent variable (c : Composer Editor) :
  let c' := insertVariable variable c in
  onChange Editor c' = onChange Editor c ++ [htmlValue Editor c']
  ∧ mode Editor c' = mode Editor c
  ∧ (editor Editor c = None →
     (mode Editor c ≠ html ∨ htmlTextareaRef Editor c = None) →
     htmlValue Editor c' = htmlValue Editor c ++ braces_open ++ variable ++ braces_close).
Proof.
  intros c'. subst c'. unfold EmailComposer.insertVariable.
  destruct (decide (mode Editor c = html)) as [Hmode | Hmode].
  - destruct (htmlTextareaRef Editor c) as [textarea |] eqn:Href.
    + split_and!; [done | done |]. intros _ [? | ?]; done.
    + destruct (editor Editor c); split_and!; done.
  - destruct (editor Editor c); split_and!; done.
Qed.
End composer_facts.

(** * The theorems at work on the sample installation *)

(** A free team that holds its one subscription is refused a second;
    a paying team that holds two gets its third. *)
Lemma create_plan_limit_witness :
  z.parse (create_input Sample.isUrl Sample.WEBHOOK_EVENT_TYPES) Sample.create_request
    = z.OK Sample.create_accepted
  ∧ Sample.create Sample.ctx_hobby Sample.create_request Sample.busy
    = (Throw (TRPCError FORBIDDEN "Webhook limit reached: 1/1. Upgrade plan to add more."),
       Sample.busy)
  ∧ ∃ row st',
      Sample.create Sample.ctx_acme Sample.create_request Sample.busy = (Return row, st')
      ∧ held 7 st' = 3%nat.
Proof.
  assert (z.parse (create_input Sample.isUrl Sample.WEBHOOK_EVENT_TYPES) Sample.create_request
          = z.OK Sample.create_accepted) as Hin by (vm_compute; reflexivity).
  split; [exact Hin |]. split.
  - refine (proj1 (proj2 (create_plan_limit Sample.isUrl Sample.WEBHOOK_EVENT_TYPES
                            Sample.generateSecret_draw 0 Sample.ctx_hobby
                            Sample.create_request Sample.create_accepted Sample.busy Hin)) _).
    vm_compute. lia.
  - destruct (create_plan_limit Sample.isUrl Sample.WEBHOOK_EVENT_TYPES
                Sample.generateSecret_draw 0 Sample.ctx_acme
                Sample.create_request Sample.create_accepted Sample.busy Hin)
      as (_ & _ & Hreturns & Hroom).
    destruct Hroom as (row & st' & Hrun); [vm_compute; lia |].
    exists row, st'. split; [exact Hrun |].
    destruct (Hreturns row st' Hrun) as (Hcount & _).
    etransitivity; [exact Hcount | vm_compute; reflexivity].
Defined.

(** Acme reactivates its active subscription that has failed four
    times. *)
Lemma setStatus_ACTIVE_resets_witness :
  (z.parse setStatus_input (Sample.status_request "wh_a" "ACTIVE")
     = z.OK {| SetStatusInput.id := "wh_a"; SetStatusInput.status := ACTIVE |}
   ∧ webhook Sample.busy !! "wh_a" = Some (Sample.hook 7 ACTIVE 4)
   ∧ Webhook.teamId (Sample.hook 7 ACTIVE 4) = Team.id (team Sample.ctx_acme)
   ∧ Webhook.status (Sample.hook 7 ACTIVE 4) ≠ DELETED)
  ∧ setStatus Sample.ctx_acme (Sample.status_request "wh_a" "ACTIVE") Sample.busy
    = (Return ("wh_a"%string, Sample.hook 7 ACTIVE 0),
       {| webhook := <["wh_a" := Sample.hook 7 ACTIVE 0]> (webhook Sample.busy);
          webhookCall := webhookCall Sample.busy; entropy := entropy Sample.busy |}).
Proof.
  assert (z.parse setStatus_input (Sample.status_request "wh_a" "ACTIVE")
          = z.OK {| SetStatusInput.id := "wh_a"; SetStatusInput.status := ACTIVE |})
    as Hin by (vm_compute; reflexivity).
  assert (webhook Sample.busy !! "wh_a" = Some (Sample.hook 7 ACTIVE 4))
    as Hw by (vm_compute; reflexivity).
  assert (Webhook.teamId (Sample.hook 7 ACTIVE 4) = Team.id (team Sample.ctx_acme))
    as Hteam by reflexivity.
  assert (Webhook.status (Sample.hook 7 ACTIVE 4) ≠ DELETED) as Hlive by discriminate.
  split; [repeat split; assumption |].
  exact (proj1 (setStatus_ACTIVE_resets Sample.ctx_acme _ Sample.busy _ _
                  Hin Hw Hteam Hlive)).
Defined.

(** The same request leaves the paused subscription's nine failures
    alone and clears the four of the one it names. *)
Lemma consecutiveFailures_steady_witness :
  (webhook Sample.busy !! "wh_p" = Some (Sample.hook 7 PAUSED 9)
   ∧ webhook Sample.busy !! "wh_a" = Some (Sample.hook 7 ACTIVE 4))
  ∧ webhook (Sample.after Sample.ctx_acme
               (SetStatus (Sample.status_request "wh_a" "ACTIVE")) Sample.busy) !! "wh_p"
    = Some (Sample.hook 7 PAUSED 9)
  ∧ ∃ w', webhook (Sample.after Sample.ctx_acme
                     (SetStatus (Sample.status_request "wh_a" "ACTIVE")) Sample.busy) !! "wh_a"
          = Some w'
      ∧ Webhook.consecutiveFailures w' = 0.
Proof.
  assert (webhook Sample.busy !! "wh_p" = Some (Sample.hook 7 PAUSED 9))
    as Hp by (vm_compute; reflexivity).
  assert (webhook Sample.busy !! "wh_a" = Some (Sample.hook 7 ACTIVE 4))
    as Ha by (vm_compute; reflexivity).
  split; [split; assumption |]. split; [vm_compute; reflexivity |].
  destruct (consecutiveFailures_steady Sample.isUrl Sample.WEBHOOK_EVENT_TYPES
              Sample.generateSecret_draw 0 Sample.ctx_acme
              (SetStatus (Sample.status_request "wh_a" "ACTIVE")) Sample.busy _ _ Ha)
    as (w' & Hw' & Hcount).
  exists w'. split; [exact Hw' |].
  destruct Hcount as [Hsame | [Hzero _]]; [| exact Hzero].
  vm_compute in Hw'. injection Hw' as <-. vm_compute in Hsame. discriminate Hsame.
Defined.

(** Deleting through [setStatus] is refused. *)
Lemma setStatus_DELETED_refused_witness :
  get "status" (Sample.status_request "wh_a" "DELETED") = JsString "DELETED"
  ∧ ∃ issues,
      setStatus Sample.ctx_acme (Sample.status_request "wh_a" "DELETED") Sample.busy
        = (Throw (ZodError issues), Sample.busy)
      ∧ deletion_issue ∈ issues.
Proof.
  assert (get "status" (Sample.status_request "wh_a" "DELETED") = JsString "DELETED")
    as Hstatus by reflexivity.
  split; [exact Hstatus |].
  destruct (setStatus_DELETED_refused Sample.ctx_acme _ Sample.busy Hstatus)
    as (issues & Hrun & Hissue & _).
  exists issues. split; assumption.
Defined.

(** Acme cannot update its deleted subscription, pause the hobby
    team's, or read the hobby team's call record. *)
Lemma not_found_leaves_store_witness :
  Sample.update Sample.ctx_acme (Sample.retarget_request "wh_d") Sample.busy
    = (Throw (TRPCError NOT_FOUND "Webhook not found"), Sample.busy)
  ∧ setStatus Sample.ctx_acme (Sample.status_request "wh_h" "PAUSED") Sample.busy
    = (Throw (TRPCError NOT_FOUND "Webhook not found"), Sample.busy)
  ∧ getCall Sample.ctx_acme (Sample.call_request "c5") Sample.busy
    = (Throw (TRPCError NOT_FOUND "Webhook call not found"), Sample.busy).
Proof.
  destruct (not_found_leaves_store Sample.isUrl Sample.WEBHOOK_EVENT_TYPES
              Sample.generateSecret_draw Sample.ctx_acme Sample.busy)
    as (Hupdate & HsetStatus & HgetCall).
  split; [| split].
  - apply (Hupdate _ (Sample.retarget_accepted "wh_d")); [vm_compute; reflexivity |].
    right. exists (Sample.hook 7 DELETED 2). split; [vm_compute; reflexivity |].
    right. reflexivity.
  - apply (HsetStatus _ {| SetStatusInput.id := "wh_h"; SetStatusInput.status := PAUSED |});
      [vm_compute; reflexivity |].
    right. exists (Sample.hook 8 ACTIVE 0). split; [vm_compute; reflexivity |].
    left. discriminate.
  - apply (HgetCall _ "c5"%string); [vm_compute; reflexivity |].
    right. exists (Sample.call 8 "wh_h" SUCCESS 250). split; [vm_compute; reflexivity |].
    discriminate.
Defined.



(** The tokens of the sample generator are long enough, so the first
    subscription of an empty store, created without a secret, is stored
    with the first token. *)
Lemma stored_secret_minimum_witness :
  (∀ n, (16 ≤ String.length (Sample.generateSecret_draw n).1)%nat)
  ∧ ∃ row st',
      Sample.create Sample.ctx_acme Sample.create_request Sample.empty = (Return row, st')
      ∧ webhook st' !! row.1 = Some row.2
      ∧ Webhook.secret row.2 = "whsec_0123456789abcdef_0"%string.
Proof.
  assert (∀ n, (16 ≤ String.length (Sample.generateSecret_draw n).1)%nat) as Hgen.
  { intros n. simpl. lia. }
  split; [exact Hgen |].
  destruct (stored_secret_minimum Sample.isUrl Sample.WEBHOOK_EVENT_TYPES
              Sample.generateSecret_draw 0 Hgen) as (Hcreate & _).
  exists ("0"%string,
          create_data 0 Sample.ctx_acme Sample.create_accepted "whsec_0123456789abcdef_0"),
         (Sample.create Sample.ctx_acme Sample.create_request Sample.empty).2.
  assert (Sample.create Sample.ctx_acme Sample.create_request Sample.empty
          = (Return ("0"%string,
                     create_data 0 Sample.ctx_acme Sample.create_accepted
                       "whsec_0123456789abcdef_0"),
             (Sample.create Sample.ctx_acme Sample.create_request Sample.empty).2))
    as Hrun by (vm_compute; reflexivity).
  split; [exact Hrun |].
  destruct (Hcreate Sample.ctx_acme Sample.create_request Sample.empty _ _
              eq_refl Hrun) as (Hstored & Hsecret & _).
  split; [exact Hstored | exact Hsecret].
Defined.

(** A request to subscribe to nothing is refused. *)
Lemma eventTypes_validated_witness :
  get "eventTypes" Sample.no_events_request = JsArray []
  ∧ ∃ issues,
      Sample.create Sample.ctx_acme Sample.no_events_request Sample.busy
        = (Throw (ZodError issues), Sample.busy).
Proof.
  assert (get "eventTypes" Sample.no_events_request = JsArray []) as Hraw by reflexivity.
  split; [exact Hraw |].
  destruct (eventTypes_validated Sample.isUrl Sample.WEBHOOK_EVENT_TYPES
              Sample.generateSecret_draw 0) as (Hrefused & _).
  exact (proj1 (Hrefused Sample.ctx_acme _ Sample.busy [] Hraw (or_introl eq_refl))).
Defined.

(** Acme rotates the secret of its subscription and sends one of its
    own along: the stored secret is the token drawn. *)
Lemma update_rotateSecret_witness :
  (z.parse (update_input Sample.isUrl Sample.WEBHOOK_EVENT_TYPES) Sample.rotate_request
     = z.OK Sample.rotate_accepted
   ∧ (Sample.update Sample.ctx_acme Sample.rotate_request Sample.busy).1
     = Return ("wh_a"%string,
               update_data Sample.rotate_accepted (Some "whsec_0123456789abcdef_0"%string)
                 (Sample.hook 7 ACTIVE 4) (Sample.hook 7 ACTIVE 4)))
  ∧ webhook (Sample.update Sample.ctx_acme Sample.rotate_request Sample.busy).2 !! "wh_a"
    = Some (update_data Sample.rotate_accepted (Some "whsec_0123456789abcdef_0"%string)
              (Sample.hook 7 ACTIVE 4) (Sample.hook 7 ACTIVE 4))
  ∧ Webhook.secret
      (update_data Sample.rotate_accepted (Some "whsec_0123456789abcdef_0"%string)
         (Sample.hook 7 ACTIVE 4) (Sample.hook 7 ACTIVE 4))
    = (Sample.generateSecret_draw (entropy Sample.busy)).1.
Proof.
  assert (z.parse (update_input Sample.isUrl Sample.WEBHOOK_EVENT_TYPES) Sample.rotate_request
          = z.OK Sample.rotate_accepted) as Hin by (vm_compute; reflexivity).
  assert (Sample.update Sample.ctx_acme Sample.rotate_request Sample.busy
          = (Return ("wh_a"%string,
                     update_data Sample.rotate_accepted
                       (Some "whsec_0123456789abcdef_0"%string)
                       (Sample.hook 7 ACTIVE 4) (Sample.hook 7 ACTIVE 4)),
             (Sample.update Sample.ctx_acme Sample.rotate_request Sample.busy).2))
    as Hrun by (vm_compute; reflexivity).
  split; [split; [exact Hin | exact (f_equal fst Hrun)] |].
  destruct (update_rotateSecret Sample.isUrl Sample.WEBHOOK_EVENT_TYPES
              Sample.generateSecret_draw Sample.ctx_acme Sample.rotate_request
              Sample.rotate_accepted Sample.busy _ _ Hin Hrun)
    as (w & _ & Hstored & Hrotate & _).
  split; [exact Hstored |]. exact (proj1 (Hrotate eq_refl)).
Defined.

(** Acme points its subscription at a new URL: the four failures, the
    status, the team and the creator stay. *)
Lemma update_frame_witness :
  (Sample.update Sample.ctx_acme (Sample.retarget_request "wh_a") Sample.busy).1
    = Return ("wh_a"%string,
              update_data (Sample.retarget_accepted "wh_a") None
                (Sample.hook 7 ACTIVE 4) (Sample.hook 7 ACTIVE 4))
  ∧ ∃ w,
      webhook Sample.busy !! "wh_a" = Some w
      ∧ Webhook.status w = ACTIVE
      ∧ Webhook.consecutiveFailures w = 4
      ∧ Webhook.teamId w = 7
      ∧ Webhook.createdByUserId w = 1.
Proof.
  assert (Sample.update Sample.ctx_acme (Sample.retarget_request "wh_a") Sample.busy
          = (Return ("wh_a"%string,
                     update_data (Sample.retarget_accepted "wh_a") None
                       (Sample.hook 7 ACTIVE 4) (Sample.hook 7 ACTIVE 4)),
             (Sample.update Sample.ctx_acme (Sample.retarget_request "wh_a")
                Sample.busy).2))
    as Hrun by (vm_compute; reflexivity).
  split; [exact (f_equal fst Hrun) |].
  destruct (update_frame Sample.isUrl Sample.WEBHOOK_EVENT_TYPES
              Sample.generateSecret_draw Sample.ctx_acme _ Sample.busy _ _ Hrun)
    as (w & Hw & _ & _ & Hstatus & Hcount & Hteam & Huser & _).
  exists w. split; [exact Hw |].
  repeat split; symmetry; assumption.
Defined.

(** Acme tries to pause the hobby team's subscription: NOT_FOUND, and
    the store is the same. *)
Lemma failure_changes_nothing_witness :
  SampleApp.run Sample.ctx_acme (SetStatus (Sample.status_request "wh_h" "PAUSED")) Sample.busy
    = (Throw (TRPCError NOT_FOUND "Webhook not found"), Sample.busy)
  ∧ Sample.busy = Sample.busy.
Proof.
  assert (SampleApp.run Sample.ctx_acme (SetStatus (Sample.status_request "wh_h" "PAUSED"))
            Sample.busy
          = (Throw (TRPCError NOT_FOUND "Webhook not found"), Sample.busy))
    as Hrun by (vm_compute; reflexivity).
  split; [exact Hrun |].
  exact (proj1 (failure_changes_nothing Sample.isUrl Sample.WEBHOOK_EVENT_TYPES
                  Sample.generateSecret_draw 0 _ _ _ _ _ Hrun)).
Defined.

(** Acme reactivates its own subscription: the hobby team's stays. *)
Lemma other_teams_untouched_witness :
  (webhook Sample.busy !! "wh_h" = Some (Sample.hook 8 ACTIVE 0)
   ∧ Webhook.teamId (Sample.hook 8 ACTIVE 0) ≠ Team.id (team Sample.ctx_acme))
  ∧ webhook (Sample.after Sample.ctx_acme
               (SetStatus (Sample.status_request "wh_a" "ACTIVE")) Sample.busy) !! "wh_h"
    = Some (Sample.hook 8 ACTIVE 0).
Proof.
  assert (webhook Sample.busy !! "wh_h" = Some (Sample.hook 8 ACTIVE 0))
    as Hw by (vm_compute; reflexivity).
  assert (Webhook.teamId (Sample.hook 8 ACTIVE 0) ≠ Team.id (team Sample.ctx_acme))
    as Hteam by discriminate.
  split; [split; assumption |].
  exact (other_teams_untouched Sample.isUrl Sample.WEBHOOK_EVENT_TYPES
           Sample.generateSecret_draw 0 Sample.ctx_acme _ Sample.busy _ _ Hw Hteam).
Defined.

(** Acme asks to reactivate its deleted subscription: the row stays
    DELETED with its two failures. *)
Lemma deleted_is_final_witness :
  (webhook Sample.busy !! "wh_d" = Some (Sample.hook 7 DELETED 2)
   ∧ Webhook.status (Sample.hook 7 DELETED 2) = DELETED)
  ∧ webhook (Sample.after Sample.ctx_acme
               (SetStatus (Sample.status_request "wh_d" "ACTIVE")) Sample.busy) !! "wh_d"
    = Some (Sample.hook 7 DELETED 2).
Proof.
  assert (webhook Sample.busy !! "wh_d" = Some (Sample.hook 7 DELETED 2))
    as Hw by (vm_compute; reflexivity).
  split; [split; [exact Hw | reflexivity] |].
  exact (proj1 (deleted_is_final Sample.isUrl Sample.WEBHOOK_EVENT_TYPES
                  Sample.generateSecret_draw 0 Sample.ctx_acme _ Sample.busy "wh_d")
           _ Hw eq_refl).
Defined.

(** After a creation, a new URL and a pause, the subscription is still
    Acme's, created by user 1. *)
Lemma rows_persist_witness :
  webhook Sample.busy !! "wh_a" = Some (Sample.hook 7 ACTIVE 4)
  ∧ ∃ w',
      webhook (SampleApp.replay
                 [(Sample.ctx_acme, Create Sample.create_request);
                  (Sample.ctx_acme, Update (Sample.retarget_request "wh_a"));
                  (Sample.ctx_acme, SetStatus (Sample.status_request "wh_a" "PAUSED"))]
                 Sample.busy) !! "wh_a" = Some w'
      ∧ Webhook.teamId w' = 7
      ∧ Webhook.createdByUserId w' = 1.
Proof.
  assert (webhook Sample.busy !! "wh_a" = Some (Sample.hook 7 ACTIVE 4))
    as Hw by (vm_compute; reflexivity).
  split; [exact Hw |].
  exact (rows_persist Sample.isUrl Sample.WEBHOOK_EVENT_TYPES Sample.generateSecret_draw 0
           _ Sample.busy _ _ Hw).
Defined.

(** The first subscription of the empty store. *)
Lemma create_adds_one_row_witness :
  (Sample.create Sample.ctx_acme Sample.create_request Sample.empty).1
    = Return ("0"%string,
              create_data 0 Sample.ctx_acme Sample.create_accepted "whsec_0123456789abcdef_0")
  ∧ webhook Sample.empty !! "0" = None
  ∧ webhook (Sample.create Sample.ctx_acme Sample.create_request Sample.empty).2
    = <["0" := create_data 0 Sample.ctx_acme Sample.create_accepted
                 "whsec_0123456789abcdef_0"]> (webhook Sample.empty).
Proof.
  assert (Sample.create Sample.ctx_acme Sample.create_request Sample.empty
          = (Return ("0"%string,
                     create_data 0 Sample.ctx_acme Sample.create_accepted
                       "whsec_0123456789abcdef_0"),
             (Sample.create Sample.ctx_acme Sample.create_request Sample.empty).2))
    as Hrun by (vm_compute; reflexivity).
  split; [exact (f_equal fst Hrun) |].
  destruct (create_adds_one_row Sample.isUrl Sample.WEBHOOK_EVENT_TYPES
              Sample.generateSecret_draw 0 Sample.ctx_acme _ Sample.empty _ _ Hrun)
    as (Hfresh & Hstore & _).
  split; [exact Hfresh | exact Hstore].
Defined.

(** Acme pauses the subscription it has just created; the hobby team
    cannot. *)
Lemma created_is_reachable_witness :
  ((Sample.create Sample.ctx_acme Sample.create_request Sample.empty).1
     = Return ("0"%string,
               create_data 0 Sample.ctx_acme Sample.create_accepted
                 "whsec_0123456789abcdef_0")
   ∧ z.parse setStatus_input (Sample.status_request "0" "PAUSED")
     = z.OK {| SetStatusInput.id := "0"; SetStatusInput.status := PAUSED |})
  ∧ setStatus Sample.ctx_hobby (Sample.status_request "0" "PAUSED")
      (Sample.create Sample.ctx_acme Sample.create_request Sample.empty).2
    = (Throw (TRPCError NOT_FOUND "Webhook not found"),
       (Sample.create Sample.ctx_acme Sample.create_request Sample.empty).2).
Proof.
  assert (Sample.create Sample.ctx_acme Sample.create_request Sample.empty
          = (Return ("0"%string,
                     create_data 0 Sample.ctx_acme Sample.create_accepted
                       "whsec_0123456789abcdef_0"),
             (Sample.create Sample.ctx_acme Sample.create_request Sample.empty).2))
    as Hrun by (vm_compute; reflexivity).
  assert (z.parse setStatus_input (Sample.status_request "0" "PAUSED")
          = z.OK {| SetStatusInput.id := "0"; SetStatusInput.status := PAUSED |})
    as Hin by (vm_compute; reflexivity).
  split; [split; [exact (f_equal fst Hrun) | exact Hin] |].
  refine (proj2 (created_is_reachable Sample.isUrl Sample.WEBHOOK_EVENT_TYPES
                   Sample.generateSecret_draw 0 Sample.ctx_acme Sample.ctx_hobby
                   _ Sample.empty _ _ _ _ Hrun Hin eq_refl) _).
  discriminate.
Defined.

(** The idle team pays for a plan but is not active: one subscription
    is all it gets. *)
Lemma inactive_team_limit_witness :
  (z.parse (create_input Sample.isUrl Sample.WEBHOOK_EVENT_TYPES) Sample.create_request
     = z.OK Sample.create_accepted
   ∧ Team.isActive (team SampleApp.ctx_idle) = false
   ∧ (1 ≤ held (Team.id (team SampleApp.ctx_idle)) SampleApp.idle)%nat)
  ∧ Sample.create SampleApp.ctx_idle Sample.create_request SampleApp.idle
    = (Throw (TRPCError FORBIDDEN "Webhook limit reached: 1/1. Upgrade plan to add more."),
       SampleApp.idle).
Proof.
  assert (z.parse (create_input Sample.isUrl Sample.WEBHOOK_EVENT_TYPES) Sample.create_request
          = z.OK Sample.create_accepted) as Hin by (vm_compute; reflexivity).
  assert (1 ≤ held (Team.id (team SampleApp.ctx_idle)) SampleApp.idle)%nat
    as Hheld by (vm_compute; lia).
  split; [split; [exact Hin | split; [reflexivity | exact Hheld]] |].
  exact (inactive_team_limit Sample.isUrl Sample.WEBHOOK_EVENT_TYPES
           Sample.generateSecret_draw 0 SampleApp.ctx_idle _ _ SampleApp.idle
           Hin eq_refl Hheld).
Defined.

(** A creation with [description: null] is refused.  An update with
    [description: null] of a subscription described as "billing" is
    taken, and returns and stores the row with no description. *)
Lemma description_handling_witness :
  (∃ issues,
     Sample.create Sample.ctx_acme SampleApp.null_description_request Sample.busy
       = (Throw (ZodError issues), Sample.busy))
  ∧ z.parse (update_input Sample.isUrl Sample.WEBHOOK_EVENT_TYPES)
      SampleApp.clear_description_request
    = z.OK SampleApp.clear_description_accepted
  ∧ (Webhook.description <$> webhook SampleApp.described !! "wh_n")
    = Some (Some "billing"%string)
  ∧ ∃ row st',
      Sample.update Sample.ctx_acme SampleApp.clear_description_request SampleApp.described
        = (Return row, st')
      ∧ row.1 = "wh_n"%string
      ∧ webhook st' !! "wh_n" = Some row.2
      ∧ Webhook.description row.2 = None.
Proof.
  destruct (description_handling Sample.isUrl Sample.WEBHOOK_EVENT_TYPES
              Sample.generateSecret_draw 0 Sample.ctx_acme
              SampleApp.null_description_request Sample.busy) as (Hcreate & _ & _).
  destruct (description_handling Sample.isUrl Sample.WEBHOOK_EVENT_TYPES
              Sample.generateSecret_draw 0 Sample.ctx_acme
              SampleApp.clear_description_request SampleApp.described)
    as (_ & Hupdate & _).
  split; [exact (Hcreate eq_refl) |].
  split; [vm_compute; reflexivity |]. split; [vm_compute; reflexivity |].
  assert (update_request Sample.isUrl Sample.WEBHOOK_EVENT_TYPES
            SampleApp.clear_description_request SampleApp.clear_description_accepted)
    as Hreq.
  { unfold update_request. simpl. split; [by eexists |]. repeat split. }
  assert (webhook SampleApp.described !! "wh_n" = Some
            {| Webhook.teamId := 7; Webhook.url := "https://example.com/hook";
               Webhook.description := Some "billing"%string;
               Webhook.secret := "0123456789abcdefXYZ";
               Webhook.eventTypes := ["email.sent"]%string;
               Webhook.status := ACTIVE; Webhook.consecutiveFailures := 0;
               Webhook.createdByUserId := 1 |}) as Hrow by (vm_compute; reflexivity).
  destruct (Hupdate _ _ Hreq Hrow eq_refl ltac:(discriminate))
    as (row & st' & Hrun & Hid & Hstored & Hdescription).
  exists row, st'. split; [exact Hrun |]. split; [exact Hid |].
  split; [| exact Hdescription]. rewrite Hid in Hstored. exact Hstored.
Defined.

(** An update of Acme's subscription that names nothing but the id. *)
Lemma update_nothing_named_witness :
  Sample.update Sample.ctx_acme (Sample.call_request "wh_a") Sample.busy
    = (Return ("wh_a"%string, Sample.hook 7 ACTIVE 4), Sample.busy)
  ∧ webhook Sample.busy !! "wh_a" = Some (Sample.hook 7 ACTIVE 4).
Proof.
  assert (Sample.update Sample.ctx_acme (Sample.call_request "wh_a") Sample.busy
          = (Return ("wh_a"%string, Sample.hook 7 ACTIVE 4), Sample.busy))
    as Hrun by (vm_compute; reflexivity).
  split; [exact Hrun |].
  exact (proj2 (update_nothing_named Sample.isUrl Sample.WEBHOOK_EVENT_TYPES
                  Sample.generateSecret_draw Sample.ctx_acme _ Sample.busy _ _ Hrun
                  eq_refl eq_refl eq_refl eq_refl eq_refl)).
Defined.

(** The new URL sent twice. *)
Lemma update_twice_witness :
  ((Sample.update Sample.ctx_acme (Sample.retarget_request "wh_a") Sample.busy).1
     = Return ("wh_a"%string,
               update_data (Sample.retarget_accepted "wh_a") None
                 (Sample.hook 7 ACTIVE 4) (Sample.hook 7 ACTIVE 4))
   ∧ get "rotateSecret" (Sample.retarget_request "wh_a") ≠ JsBoolean true)
  ∧ Sample.update Sample.ctx_acme (Sample.retarget_request "wh_a")
      (Sample.update Sample.ctx_acme (Sample.retarget_request "wh_a") Sample.busy).2
    = (Return ("wh_a"%string,
               update_data (Sample.retarget_accepted "wh_a") None
                 (Sample.hook 7 ACTIVE 4) (Sample.hook 7 ACTIVE 4)),
       (Sample.update Sample.ctx_acme (Sample.retarget_request "wh_a") Sample.busy).2).
Proof.
  assert (Sample.update Sample.ctx_acme (Sample.retarget_request "wh_a") Sample.busy
          = (Return ("wh_a"%string,
                     update_data (Sample.retarget_accepted "wh_a") None
                       (Sample.hook 7 ACTIVE 4) (Sample.hook 7 ACTIVE 4)),
             (Sample.update Sample.ctx_acme (Sample.retarget_request "wh_a")
                Sample.busy).2))
    as Hrun by (vm_compute; reflexivity).
  assert (get "rotateSecret" (Sample.retarget_request "wh_a") ≠ JsBoolean true)
    as Hrot by discriminate.
  split; [split; [exact (f_equal fst Hrun) | exact Hrot] |].
  exact (update_twice Sample.isUrl Sample.WEBHOOK_EVENT_TYPES Sample.generateSecret_draw
           Sample.ctx_acme _ Sample.busy _ _ Hrun Hrot).
Defined.

(** The pause sent twice. *)
Lemma setStatus_twice_witness :
  (setStatus Sample.ctx_acme (Sample.status_request "wh_a" "PAUSED") Sample.busy).1
    = Return ("wh_a"%string, Sample.hook 7 PAUSED 4)
  ∧ setStatus Sample.ctx_acme (Sample.status_request "wh_a" "PAUSED")
      (setStatus Sample.ctx_acme (Sample.status_request "wh_a" "PAUSED") Sample.busy).2
    = (Return ("wh_a"%string, Sample.hook 7 PAUSED 4),
       (setStatus Sample.ctx_acme (Sample.status_request "wh_a" "PAUSED") Sample.busy).2).
Proof.
  assert (setStatus Sample.ctx_acme (Sample.status_request "wh_a" "PAUSED") Sample.busy
          = (Return ("wh_a"%string, Sample.hook 7 PAUSED 4),
             (setStatus Sample.ctx_acme (Sample.status_request "wh_a" "PAUSED")
                Sample.busy).2))
    as Hrun by (vm_compute; reflexivity).
  split; [exact (f_equal fst Hrun) |].
  exact (setStatus_twice Sample.ctx_acme _ Sample.busy _ _ Hrun).
Defined.

(** Pausing keeps the four failures on record. *)
Lemma setStatus_keeps_count_witness :
  (setStatus Sample.ctx_acme (Sample.status_request "wh_a" "PAUSED") Sample.busy).1
    = Return ("wh_a"%string, Sample.hook 7 PAUSED 4)
  ∧ ∃ w, webhook Sample.busy !! "wh_a" = Some w ∧ Webhook.consecutiveFailures w = 4.
Proof.
  assert (setStatus Sample.ctx_acme (Sample.status_request "wh_a" "PAUSED") Sample.busy
          = (Return ("wh_a"%string, Sample.hook 7 PAUSED 4),
             (setStatus Sample.ctx_acme (Sample.status_request "wh_a" "PAUSED")
                Sample.busy).2))
    as Hrun by (vm_compute; reflexivity).
  split; [exact (f_equal fst Hrun) |].
  destruct (setStatus_keeps_count Sample.ctx_acme _ Sample.busy _ _ Hrun)
    as (w & Hw & _ & _ & _ & Hcount & _).
  exists w. split; [exact Hw |]. symmetry. apply Hcount. discriminate.
Defined.

(** A page and a call read, and the store after. *)
Lemma queries_change_nothing_witness :
  (listCalls Sample.ctx_acme Sample.page_request Sample.busy).2 = Sample.busy
  ∧ (getCall Sample.ctx_acme (Sample.call_request "c1") Sample.busy).2 = Sample.busy.
Proof. exact (queries_change_nothing Sample.ctx_acme _ Sample.busy). Defined.

(** A page of 51 is refused. *)
Lemma listCalls_limit_bounds_witness :
  get "limit" (SampleApp.page_size_request 51) ≠ undefined
  ∧ ∃ issues,
      listCalls Sample.ctx_acme (SampleApp.page_size_request 51) Sample.busy
        = (Throw (ZodError issues), Sample.busy).
Proof.
  assert (get "limit" (SampleApp.page_size_request 51) ≠ undefined) as Hgiven by discriminate.
  split; [exact Hgiven |].
  apply (listCalls_limit_bounds Sample.ctx_acme _ Sample.busy Hgiven).
  intros n Hn. injection Hn as <-. right. lia.
Defined.

(** The first page asked for with [cursor: ""]. *)
Lemma empty_cursor_is_no_cursor_witness :
  (z.parse listCalls_input (SampleApp.cursor_request "")
     = z.OK (SampleApp.cursor_accepted (Some ""%string))
   ∧ z.parse listCalls_input Sample.page_request = z.OK (SampleApp.cursor_accepted None))
  ∧ listCalls Sample.ctx_acme (SampleApp.cursor_request "") Sample.busy
    = listCalls Sample.ctx_acme Sample.page_request Sample.busy.
Proof.
  assert (z.parse listCalls_input (SampleApp.cursor_request "")
          = z.OK (SampleApp.cursor_accepted (Some ""%string)))
    as Hin by (vm_compute; reflexivity).
  assert (z.parse listCalls_input Sample.page_request = z.OK (SampleApp.cursor_accepted None))
    as Hin' by (vm_compute; reflexivity).
  split; [split; assumption |].
  exact (empty_cursor_is_no_cursor Sample.ctx_acme _ _ _ Sample.busy Hin eq_refl Hin').
Defined.

(** The second page of the calls of Acme's subscription: the two
    oldest, and no page after. *)
Lemma next_page_continues_witness :
  (z.parse listCalls_input Sample.page_request = z.OK Sample.page_accepted
   ∧ listCalls Sample.ctx_acme Sample.page_request Sample.busy
     = (Return
          {| ListCallsOutput.items :=
               [("c4"%string, Sample.call 7 "wh_a" FAILED 400);
                ("c3"%string, Sample.call 7 "wh_a" SUCCESS 300)];
             ListCallsOutput.nextCursor := Some "c2"%string |},
        Sample.busy)
   ∧ z.parse listCalls_input (SampleApp.cursor_request "c2")
     = z.OK (SampleApp.cursor_accepted (Some "c2"%string)))
  ∧ ∃ out2,
      listCalls Sample.ctx_acme (SampleApp.cursor_request "c2") Sample.busy
        = (Return out2, Sample.busy)
      ∧ ListCallsOutput.items out2
        = [("c2"%string, Sample.call 7 "wh_a" FAILED 200);
           ("c1"%string, Sample.call 7 "wh_a" SUCCESS 100)]
      ∧ ListCallsOutput.nextCursor out2 = None.
Proof.
  assert (z.parse listCalls_input Sample.page_request = z.OK Sample.page_accepted)
    as Hin1 by (vm_compute; reflexivity).
  assert (listCalls Sample.ctx_acme Sample.page_request Sample.busy
          = (Return
               {| ListCallsOutput.items :=
                    [("c4"%string, Sample.call 7 "wh_a" FAILED 400);
                     ("c3"%string, Sample.call 7 "wh_a" SUCCESS 300)];
                  ListCallsOutput.nextCursor := Some "c2"%string |},
             Sample.busy)) as Hrun1 by (vm_compute; reflexivity).
  assert (z.parse listCalls_input (SampleApp.cursor_request "c2")
          = z.OK (SampleApp.cursor_accepted (Some "c2"%string)))
    as Hin2 by (vm_compute; reflexivity).
  split; [split; [exact Hin1 | split; [exact Hrun1 | exact Hin2]] |].
  assert ("c2"%string ≠ ""%string) as Hc by discriminate.
  destruct (next_page_continues Sample.ctx_acme _ _ _ Sample.busy _ "c2"
              Hin1 Hrun1 eq_refl Hc Hin2) as (out2 & Hrun2 & Hitems & _ & Hnext).
  exists out2. split; [exact Hrun2 |]. split.
  - etransitivity; [exact Hitems | vm_compute; reflexivity].
  - etransitivity; [exact Hnext | vm_compute; reflexivity].
Defined.

(** The latest call of the page, fetched by its id. *)
Lemma listed_call_is_found_witness :
  (listCalls Sample.ctx_acme Sample.page_request Sample.busy
     = (Return
          {| ListCallsOutput.items :=
               [("c4"%string, Sample.call 7 "wh_a" FAILED 400);
                ("c3"%string, Sample.call 7 "wh_a" SUCCESS 300)];
             ListCallsOutput.nextCursor := Some "c2"%string |},
        Sample.busy)
   ∧ z.parse id_input (Sample.call_request "c4") = z.OK "c4"%string)
  ∧ getCall Sample.ctx_acme (Sample.call_request "c4") Sample.busy
    = (Return ("c4"%string, Sample.call 7 "wh_a" FAILED 400), Sample.busy).
Proof.
  assert (listCalls Sample.ctx_acme Sample.page_request Sample.busy
          = (Return
               {| ListCallsOutput.items :=
                    [("c4"%string, Sample.call 7 "wh_a" FAILED 400);
                     ("c3"%string, Sample.call 7 "wh_a" SUCCESS 300)];
                  ListCallsOutput.nextCursor := Some "c2"%string |},
             Sample.busy)) as Hrun by (vm_compute; reflexivity).
  assert (z.parse id_input (Sample.call_request "c4") = z.OK "c4"%string)
    as Hid by (vm_compute; reflexivity).
  split; [split; assumption |].
  refine (listed_call_is_found Sample.ctx_acme _ Sample.busy _
            ("c4"%string, Sample.call 7 "wh_a" FAILED 400) _ Hrun _ Hid).
  simpl. constructor.
Defined.

(** [list] shows Acme its two live subscriptions, the paused one, of
    time 30, before the active one, of time 10. *)
Lemma list_shows_held_witness :
  ∃ rows,
    webhookRouter.list SampleApp.createdAt Sample.ctx_acme Sample.busy
      = (Return rows, Sample.busy)
    ∧ rows.*1 = ["wh_p"; "wh_a"]%string
    ∧ length rows = held 7 Sample.busy.
Proof.
  destruct (list_shows_held SampleApp.createdAt Sample.ctx_acme Sample.busy)
    as (rows & Hrun & _ & _ & Hlen & _).
  exists rows. split; [exact Hrun |]. split; [| exact Hlen].
  vm_compute in Hrun. injection Hrun as <-. reflexivity.
Defined.

(** After Acme's third subscription, [list] shows three. *)
Lemma list_after_create_witness :
  (Sample.create Sample.ctx_acme Sample.create_request Sample.busy).1
    = Return ("0"%string,
              create_data 0 Sample.ctx_acme Sample.create_accepted "whsec_0123456789abcdef_0")
  ∧ ∃ rows',
      webhookRouter.list SampleApp.createdAt Sample.ctx_acme
        (Sample.create Sample.ctx_acme Sample.create_request Sample.busy).2
        = (Return rows',
           (Sample.create Sample.ctx_acme Sample.create_request Sample.busy).2)
      ∧ length rows' = 3%nat.
Proof.
  assert (Sample.create Sample.ctx_acme Sample.create_request Sample.busy
          = (Return ("0"%string,
                     create_data 0 Sample.ctx_acme Sample.create_accepted
                       "whsec_0123456789abcdef_0"),
             (Sample.create Sample.ctx_acme Sample.create_request Sample.busy).2))
    as Hrun by (vm_compute; reflexivity).
  split; [exact (f_equal fst Hrun) |].
  destruct (list_after_create Sample.isUrl Sample.WEBHOOK_EVENT_TYPES
              Sample.generateSecret_draw 0 SampleApp.createdAt Sample.ctx_acme
              _ Sample.busy _ _ Hrun)
    as (rows & rows' & Hlist & Hlist' & _ & Hlen & _).
  exists rows'. split; [exact Hlist' |].
  etransitivity; [exact Hlen |]. f_equal.
  vm_compute in Hlist. injection Hlist as <-. reflexivity.
Defined.

(** A link without [id]. *)
Lemma POST_invalid_link_witness :
  (SampleApp.URL_searchParams SampleApp.short_link = inr [("hash", "h1")]%string
   ∧ unsubscribe_oneclick.searchParams_get "id" [("hash", "h1")]%string = None)
  ∧ ∃ message,
      SampleApp.POST {| unsubscribe_oneclick.url := SampleApp.short_link |} SampleApp.quiet
      = ({| unsubscribe_oneclick.body :=
              JsObject [("error", JsString "Invalid unsubscribe link")]%string;
            unsubscribe_oneclick.status := 400 |},
         {| unsubscribe_oneclick.service := [];
            unsubscribe_oneclick.log := [unsubscribe_oneclick.warn message] |}).
Proof.
  assert (SampleApp.URL_searchParams SampleApp.short_link = inr [("hash", "h1")]%string)
    as Hurl by reflexivity.
  split; [split; [exact Hurl | reflexivity] |].
  exact (POST_invalid_link SampleApp.URL_searchParams SampleApp.unsubscribeContactFromLink
           {| unsubscribe_oneclick.url := SampleApp.short_link |} SampleApp.quiet
           _ Hurl (or_introl eq_refl)).
Defined.

(** A good link: the service notes the id, and the answer is 200. *)
Lemma POST_calls_service_witness :
  (SampleApp.URL_searchParams SampleApp.good_link
     = inr [("id", "c1-k9"); ("hash", "h1"); ("list", "news")]%string
   ∧ "c1-k9"%string ≠ ""%string ∧ "h1"%string ≠ ""%string)
  ∧ SampleApp.POST {| unsubscribe_oneclick.url := SampleApp.good_link |} SampleApp.quiet
    = ({| unsubscribe_oneclick.body :=
            JsObject [("success", JsBoolean true);
                      ("message", JsString "Successfully unsubscribed")]%string;
          unsubscribe_oneclick.status := 200 |},
       {| unsubscribe_oneclick.service := ["c1-k9"%string];
          unsubscribe_oneclick.log :=
            [unsubscribe_oneclick.info "c1" (Some "k9"%string) None (Some "news"%string)
               "One-click unsubscribe successful"] |}).
Proof.
  assert (SampleApp.URL_searchParams SampleApp.good_link
          = inr [("id", "c1-k9"); ("hash", "h1"); ("list", "news")]%string)
    as Hurl by reflexivity.
  assert ("c1-k9"%string ≠ ""%string) as Hid by discriminate.
  assert ("h1"%string ≠ ""%string) as Hhash by discriminate.
  split; [split; [exact Hurl | split; assumption] |].
  exact (POST_calls_service SampleApp.URL_searchParams SampleApp.unsubscribeContactFromLink
           {| unsubscribe_oneclick.url := SampleApp.good_link |} SampleApp.quiet
           _ "c1-k9" "h1" Hurl eq_refl Hid eq_refl Hhash).
Defined.

(** A link the [URL] parser refuses: 500, and one line in the log. *)
Lemma POST_success_only_by_service_witness :
  unsubscribe_oneclick.status
    (SampleApp.POST {| unsubscribe_oneclick.url := "nonsense" |} SampleApp.quiet).1 = 500
  ∧ length (unsubscribe_oneclick.log (list string)
              (SampleApp.POST {| unsubscribe_oneclick.url := "nonsense" |}
                 SampleApp.quiet).2) = 1%nat.
Proof.
  split; [reflexivity |].
  exact (proj1 (proj2 (POST_success_only_by_service SampleApp.URL_searchParams
                         SampleApp.unsubscribeContactFromLink
                         {| unsubscribe_oneclick.url := "nonsense" |} SampleApp.quiet))).
Defined.

(** The modal opened for a reason and closed again holds no reason. *)
Lemma last_action_decides_witness :
  foldl (upgradeModalStore.dispatch string) (upgradeModalStore.initial string)
    ([upgradeModalStore.OpenModal string (Some "webhooks"%string)]
     ++ [upgradeModalStore.CloseModal string])
  = upgradeModalStore.initial string.
Proof.
  exact (proj1 (last_action_decides (upgradeModalStore.initial string)
                  [upgradeModalStore.OpenModal string (Some "webhooks"%string)])
           (upgradeModalStore.CloseModal string)).
Defined.

(** The variable ["ab"] put before the [!] of ["Hi !"]: the caret ends
    at 9, behind ["Hi {{ab}}"]. *)
Lemma insertVariable_replaces_selection_witness :
  (EmailComposer.mode (list N) SampleApp.composing = EmailComposer.html
   ∧ (3 ≤ 3 ≤ length (EmailComposer.htmlValue (list N) SampleApp.composing))%nat)
  ∧ EmailComposer.htmlTextareaRef (list N) (SampleApp.insertVariable [97; 98]%N SampleApp.composing)
    = Some {| EmailComposer.selectionStart := 9; EmailComposer.selectionEnd := 9 |}
  ∧ take 9 (EmailComposer.htmlValue (list N)
              (SampleApp.insertVariable [97; 98]%N SampleApp.composing))
    = [72; 105; 32; 123; 123; 97; 98; 125; 125]%N.
Proof.
  assert (3 ≤ 3 ≤ length (EmailComposer.htmlValue (list N) SampleApp.composing))%nat
    as Hsel by (simpl; lia).
  split; [split; [reflexivity | exact Hsel] |].
  destruct (insertVariable_replaces_selection (λ value _, value) (λ token e, e ++ token)
              (λ e, e) [97; 98]%N SampleApp.composing
              {| EmailComposer.selectionStart := 3; EmailComposer.selectionEnd := 3 |}
              eq_refl eq_refl Hsel) as (Hcaret & Hbefore & _).
  split; [exact Hcaret | exact Hbefore].
Defined.

(** The parent is told the new text, once. *)
Lemma insertVariable_tells_parent_witness :
  EmailComposer.onChange (list N) (SampleApp.insertVariable [97; 98]%N SampleApp.composing)
  = [[72; 105; 32; 123; 123; 97; 98; 125; 125; 33]%N].
Proof.
  exact (proj1 (insertVariable_tells_parent (λ value _, value) (λ token e, e ++ token)
                  (λ e, e) [97; 98]%N SampleApp.composing)).
Defined.
